(** * BlackRoad Document Automation: template rendering, versioning and export

    A shallow embedding of [src/document_automation.py] and the properties of
    its core: the placeholder extractor, the substitution engine, the
    template upsert rule, and the document life cycle (draft, exported).

    Conventions of the embedding.
    - A Python [str] is a list of Unicode code points ([N]); the texts
      given to the store are well formed (no lone surrogate), as SQLite
      takes only such.
    - A raised exception is a value of [exn]; a call that may raise returns a
      [result].
    - The engine's state ([world]) is the SQLite connection's view of the
      three tables, the last committed copy of them, and the files by
      path.  [datetime.utcnow()] is an input of each operation.
    - The file system says through [fs_accepts] whether it opens a path
      for writing; a file that it opens is written in full.
    - A method of [DocumentEngine] is a computation in the monad [M] of
      state and exceptions, written in the order of the source. *)

From Stdlib Require Import ZArith NArith Lia String Ascii List DecimalString.
From stdpp Require Import base option list gmap sorting.

Local Open Scope N_scope.

(** ** Strings *)

Abbreviation char := N (only parsing).
Abbreviation str := (list N) (only parsing).

(** A literal of the source, written as an ASCII string. *)
Definition py (s : string) : str := map N_of_ascii (list_ascii_of_string s).

Definition LBRACE : char := 123.
Definition RBRACE : char := 125.
Definition NL : str := [10].

(** [str.isspace] on one code point: the code points whose
    bidirectional class is WS, B or S, or whose category is Zs. *)
Definition py_isspace (c : char) : bool :=
  ((9 <=? c) && (c <=? 13)) || ((28 <=? c) && (c <=? 32))
  || (c =? 133) || (c =? 160) || (c =? 5760)
  || ((8192 <=? c) && (c <=? 8202))
  || (c =? 8232) || (c =? 8233) || (c =? 8239) || (c =? 8287) || (c =? 12288).

Fixpoint lstrip (s : str) : str :=
  match s with
  | c :: s' => if py_isspace c then lstrip s' else s
  | [] => []
  end.

Definition rstrip (s : str) : str := rev (lstrip (rev s)).

(** [s.strip()] *)
Definition strip (s : str) : str := rstrip (lstrip s).

(** ** Exceptions and results *)

(** [ValueError_from exc] is the exception of
    [raise ValueError(str(exc)) from exc]: its message is the text of [exc]
    and its [__cause__] is [exc].  [FileNotFoundError] is what
    [Path.stat] raises for a path that does not exist.  [OSError] stands
    for what [Path.write_text] raises when the file system does not open
    the path: [OSError] itself or one of its subclasses.  [OverflowError]
    is what [execute] raises for an [int] parameter that does not fit
    SQLite's 64-bit integers. *)
Inductive exn : Type :=
| KeyError (arg : str)
| ValueError_from (cause : exn)
| FileNotFoundError (filename : str)
| OSError (filename : str)
| OverflowError.

Inductive result (A : Type) : Type :=
| Ok (a : A)
| Raise (e : exn).
Arguments Ok {A} a.
Arguments Raise {A} e.

Definition is_KeyError (e : exn) : bool :=
  match e with KeyError _ => true | _ => false end.

(** ** The placeholder pattern [\{\{([^}]+)\}\}] *)

(** The greedy [[^}]+]: the longest prefix free of the closing brace, and
    what follows it. *)
Fixpoint span_name (s : str) : str * str :=
  match s with
  | c :: s' =>
      if c =? RBRACE then ([], s)
      else let '(g, r) := span_name s' in (c :: g, r)
  | [] => ([], [])
  end.

(** The pattern anchored at the head of [s]: group 1 and the text after the
    match.  A shorter group cannot match, since the character after it would
    not be a closing brace, so the greedy choice is the only one. *)
Definition match_placeholder (s : str) : option (str * str) :=
  match s with
  | c1 :: c2 :: s1 =>
      if (c1 =? LBRACE) && (c2 =? LBRACE) then
        match span_name s1 with
        | ((_ :: _) as g, r1 :: r2 :: rest) =>
            if (r1 =? RBRACE) && (r2 =? RBRACE) then Some (g, rest) else None
        | _ => None
        end
      else None
  | _ => None
  end.

(** [re.sub(pattern, repl, s)] with a callable [repl] that may raise: the
    text is scanned left to right, every match is replaced by what [repl]
    returns for its group, the text between matches is copied, and the scan
    resumes after the match.  The first exception of [repl] ends the call. *)
Fixpoint re_sub_fuel (fuel : nat) (repl : str -> result str) (s : str)
  : result str :=
  match fuel with
  | O => Ok []
  | S n =>
      match match_placeholder s with
      | Some (g, rest) =>
          match repl g with
          | Raise e => Raise e
          | Ok v =>
              match re_sub_fuel n repl rest with
              | Raise e => Raise e
              | Ok out => Ok (v ++ out)
              end
          end
      | None =>
          match s with
          | [] => Ok []
          | c :: s' =>
              match re_sub_fuel n repl s' with
              | Raise e => Raise e
              | Ok out => Ok (c :: out)
              end
          end
      end
  end.

Definition re_sub (repl : str -> result str) (s : str) : result str :=
  re_sub_fuel (S (length s)) repl s.

(** [re.findall(pattern, s)]: group 1 of every match, left to right. *)
Fixpoint re_findall_fuel (fuel : nat) (s : str) : list str :=
  match fuel with
  | O => []
  | S n =>
      match match_placeholder s with
      | Some (g, rest) => g :: re_findall_fuel n rest
      | None =>
          match s with
          | [] => []
          | _ :: s' => re_findall_fuel n s'
          end
      end
  end.

Definition re_findall (s : str) : list str := re_findall_fuel (S (length s)) s.

(** The text of a placeholder whose name, as written, is [g]. *)
Definition placeholder_token (g : str) : str :=
  [LBRACE; LBRACE] ++ g ++ [RBRACE; RBRACE].

(** ** Variable mappings

    A [Dict[str, str]]: the keys in insertion order, each with its value. *)
Definition dict := list (str * str).

Fixpoint dict_get (d : dict) (k : str) : option str :=
  match d with
  | (k', v) :: d' => if bool_decide (k' = k) then Some v else dict_get d' k
  | [] => None
  end.

(** [k in d] *)
Definition dict_has (d : dict) (k : str) : bool :=
  match dict_get d k with Some _ => true | None => false end.

(** ** Rendering *)

Definition missing_variable_msg (key : str) : str :=
  py "Missing template variable: '" ++ key ++ py "'".

(** The inner [replace] of [_render]. *)
Definition replace (variables : dict) (g : str) : result str :=
  let key := strip g in
  match dict_get variables key with
  | None => Raise (KeyError (missing_variable_msg key))
  | Some v => Ok v
  end.

Definition _render (content : str) (variables : dict) : result str :=
  re_sub (replace variables) content.

(** [dict.fromkeys(names)] then [list]: the keys in insertion order. *)
Definition dict_fromkeys (names : list str) : list str :=
  fold_left (fun acc k => if bool_decide (k ∈ acc) then acc else acc ++ [k])
            names [].

Definition _extract_vars (content : str) : list str :=
  dict_fromkeys (map strip (re_findall content)).

(** ** Numbers and dates as text *)

(** [str(n)] for an [int]. *)
Definition str_of_int (n : Z) : str :=
  py (DecimalString.NilZero.string_of_int (Z.to_int n)).

Definition digit (d : N) : char := 48 + d mod 10.

Definition pad2 (n : N) : str := [digit (n / 10); digit n].
Definition pad4 (n : N) : str :=
  [digit (n / 1000); digit (n / 100); digit (n / 10); digit n].
Definition pad6 (n : N) : str :=
  [digit (n / 100000); digit (n / 10000); digit (n / 1000);
   digit (n / 100); digit (n / 10); digit n].

(** A reading of [datetime.utcnow()]. *)
Record datetime : Type := mk_datetime {
  year : N; month : N; day : N;
  hour : N; minute : N; second : N; microsecond : N
}.

(** [dt.isoformat()]: the fraction is printed only when it is not zero. *)
Definition isoformat (dt : datetime) : str :=
  pad4 (year dt) ++ py "-" ++ pad2 (month dt) ++ py "-" ++ pad2 (day dt)
  ++ py "T" ++ pad2 (hour dt) ++ py ":" ++ pad2 (minute dt)
  ++ py ":" ++ pad2 (second dt)
  ++ (if microsecond dt =? 0 then [] else py "." ++ pad6 (microsecond dt)).

(** [dt.strftime("%Y%m%d_%H%M%S")]: fifteen characters, for the years of
    four digits that the clock gives. *)
Definition strftime_tag (dt : datetime) : str :=
  pad4 (year dt) ++ pad2 (month dt) ++ pad2 (day dt) ++ py "_"
  ++ pad2 (hour dt) ++ pad2 (minute dt) ++ pad2 (second dt).

(** ** Encodings *)

(** The UTF-8 bytes of one code point. *)
Definition utf8_char (c : char) : list N :=
  if c <? 128 then [c]
  else if c <? 2048 then [192 + c / 64; 128 + c mod 64]
  else if c <? 65536 then
    [224 + c / 4096; 128 + (c / 64) mod 64; 128 + c mod 64]
  else
    [240 + c / 262144; 128 + (c / 4096) mod 64;
     128 + (c / 64) mod 64; 128 + c mod 64].

(** [s.encode("utf-8")].  The texts encoded here are read back from the
    database, which stores UTF-8, so no code point is refused. *)
Definition utf8_encode (s : str) : list N := flat_map utf8_char s.

Definition hex_digit (d : N) : char :=
  let d := d mod 16 in if d <? 10 then 48 + d else 87 + d.

(** ['\\u{0:04x}'.format(n)] *)
Definition u_escape (n : N) : str :=
  [92; 117; hex_digit (n / 4096); hex_digit (n / 256);
   hex_digit (n / 16); hex_digit n].

(** One character of a JSON string under [ensure_ascii]. *)
Definition json_escape_char (c : char) : str :=
  if c =? 34 then [92; 34]
  else if c =? 92 then [92; 92]
  else if c =? 10 then [92; 110]
  else if c =? 13 then [92; 114]
  else if c =? 9 then [92; 116]
  else if c =? 8 then [92; 98]
  else if c =? 12 then [92; 102]
  else if (32 <=? c) && (c <=? 126) then [c]
  else if c <? 65536 then u_escape c
  else
    let n := c - 65536 in
    u_escape (55296 + (n / 1024) mod 1024) ++ u_escape (56320 + n mod 1024).

Definition json_str (s : str) : str :=
  [34] ++ flat_map json_escape_char s ++ [34].

(** [sep.join(parts)] *)
Fixpoint join (sep : str) (parts : list str) : str :=
  match parts with
  | [] => []
  | [p] => p
  | p :: ps => p ++ sep ++ join sep ps
  end.

(** [json.dumps] of a list of strings. *)
Definition json_dumps_list (l : list str) : str :=
  py "[" ++ join (py ", ") (map json_str l) ++ py "]".

(** [json.dumps] of a mapping from strings to strings. *)
Definition json_dumps_dict (d : dict) : str :=
  py "{"
  ++ join (py ", ") (map (fun kv => json_str kv.1 ++ py ": " ++ json_str kv.2) d)
  ++ py "}".

(** ** Data model *)

Module Template.
Record t : Type := mk {
  id : Z;
  name : str;
  content : str;
  variables : str;
  category : str;
  version : Z;
  created_at : str;
  updated_at : str
}.
End Template.

Module Document.
Record t : Type := mk {
  id : Z;
  template_id : Z;
  template_name : str;
  title : str;
  content : str;
  variables_used : str;
  fmt : str;
  status : str;
  created_at : str
}.
End Document.

Module ExportRecord.
Record t : Type := mk {
  id : Z;
  document_id : Z;
  export_path : str;
  export_format : str;
  file_size_bytes : Z;
  exported_at : str
}.
End ExportRecord.

(** The three tables of [_get_db], rows in insertion order. *)
Record database : Type := mk_database {
  templates : list Template.t;
  documents : list Document.t;
  export_records : list ExportRecord.t
}.

(** What the process takes from its surroundings: the home directory behind
    [DB_PATH] and [DOCS_DIR], as [str(Path.home())]; the interpreter's
    Unicode table that says which code points from 128 on are alphanumeric;
    and the file system's answer to the opening of a path for writing,
    which it refuses for a name that is too long, a directory that is not
    there or a missing permission. *)
Record process_env : Type := mk_env {
  home : str;
  uni_isalnum : char -> bool;
  fs_accepts : str -> bool
}.

(** The state an engine works on: the tables as the connection sees them,
    the tables as last committed, and the files by path. *)
Record world : Type := mk_world {
  env : process_env;
  conn : database;
  committed : database;
  files : gmap str (list N)
}.

Definition empty_database : database := mk_database [] [] [].

(** What [DocumentEngine()] finds on a fresh installation: the three
    tables just created, without rows, and whatever the disk holds. *)
Definition init_world (e : process_env) (fs : gmap str (list N)) : world :=
  mk_world e empty_database empty_database fs.

(** ** A state and exception monad for the engine's methods *)

Definition M (A : Type) : Type := world -> result A * world.

Definition ret {A} (a : A) : M A := fun w => (Ok a, w).
Definition raise {A} (e : exn) : M A := fun w => (Raise e, w).
Definition bind {A B} (m : M A) (k : A -> M B) : M B :=
  fun w =>
    match m w with
    | (Ok a, w') => k a w'
    | (Raise e, w') => (Raise e, w')
    end.

Notation "'let*' x ':=' m 'in' k" := (bind m (fun x => k))
  (at level 10, x pattern, m at level 100, k at level 200).
Notation "m ';;' k" := (bind m (fun _ => k))
  (at level 100, k at level 200, right associativity).

Definition get_conn : M database := fun w => (Ok (conn w), w).
Definition get_env : M process_env := fun w => (Ok (env w), w).
Definition set_conn (d : database) : M unit :=
  fun w => (Ok tt, mk_world (env w) d (committed w) (files w)).

(** [self._db.commit()] *)
Definition commit : M unit :=
  fun w => (Ok tt, mk_world (env w) (conn w) (conn w) (files w)).

(** The binding of an [int] parameter by [execute]: an integer outside
    the 64-bit range is refused before the statement runs. *)
Definition bind_int (n : Z) : M unit :=
  if ((- 2 ^ 63 <=? n) && (n <? 2 ^ 63))%Z then ret tt
  else raise OverflowError.

(** [path.write_text(body, encoding="utf-8")]: the file is opened for
    writing, which the file system may refuse, and then holds the bytes
    of the body. *)
Definition write_text (path : str) (body : str) : M unit :=
  fun w =>
    if fs_accepts (env w) path then
      (Ok tt, mk_world (env w) (conn w) (committed w)
                       (<[path := utf8_encode body]> (files w)))
    else (Raise (OSError path), w).

(** [path.stat().st_size] *)
Definition stat_size (path : str) : M Z :=
  fun w =>
    match files w !! path with
    | Some bytes => (Ok (Z.of_nat (length bytes)), w)
    | None => (Raise (FileNotFoundError path), w)
    end.

(** [cur.lastrowid] of an insert into an [AUTOINCREMENT] table from which
    nothing is ever deleted: one more than the largest row id. *)
Definition next_rowid (ids : list Z) : Z := (1 + foldr Z.max 0 ids)%Z.

(** [SELECT ... FROM templates WHERE name=?] then [fetchone()] *)
Definition select_template (name : str) : M (option Template.t) :=
  let* d := get_conn in
  ret (find (fun r => bool_decide (Template.name r = name)) (templates d)).

(** The [SET content=?, variables=?, category=?, version=?, updated_at=?]
    of the template update, on one row. *)
Definition set_template (content variables category : str) (ver : Z)
           (ts : str) (r : Template.t) : Template.t :=
  Template.mk (Template.id r) (Template.name r) content variables category
              ver (Template.created_at r) ts.

(** [UPDATE templates SET ... WHERE name=?] *)
Definition update_template (content variables category : str) (ver : Z)
           (ts name : str) : M unit :=
  let* d := get_conn in
  set_conn (mk_database
    (map (fun r =>
            if bool_decide (Template.name r = name)
            then set_template content variables category ver ts r
            else r) (templates d))
    (documents d) (export_records d)).

(** [INSERT INTO templates (name, content, variables, category, version,
    created_at, updated_at)]; returns [cur.lastrowid]. *)
Definition insert_template (name content variables category : str) (ver : Z)
           (created updated : str) : M Z :=
  let* d := get_conn in
  let rowid := next_rowid (map Template.id (templates d)) in
  set_conn (mk_database
    (templates d ++ [Template.mk rowid name content variables category ver
                                 created updated])
    (documents d) (export_records d)) ;;
  ret rowid.

(** [SELECT * FROM documents WHERE id=?] then [fetchone()], for an id that
    [execute] has bound ([bind_int]). *)
Definition select_document (doc_id : Z) : M (option Document.t) :=
  let* d := get_conn in
  ret (find (fun r => bool_decide (Document.id r = doc_id)) (documents d)).

(** [INSERT INTO documents (...)]; returns [cur.lastrowid]. *)
Definition insert_document (template_id : Z)
           (template_name title content variables_used fmt status created : str)
  : M Z :=
  let* d := get_conn in
  let rowid := next_rowid (map Document.id (documents d)) in
  set_conn (mk_database (templates d)
    (documents d ++ [Document.mk rowid template_id template_name title content
                                 variables_used fmt status created])
    (export_records d)) ;;
  ret rowid.

(** [INSERT INTO export_records (...)]; returns [cur.lastrowid]. *)
Definition insert_export_record (document_id : Z)
           (export_path export_format : str) (size : Z) (exported_at : str)
  : M Z :=
  let* d := get_conn in
  let rowid := next_rowid (map ExportRecord.id (export_records d)) in
  set_conn (mk_database (templates d) (documents d)
    (export_records d ++ [ExportRecord.mk rowid document_id export_path
                                          export_format size exported_at])) ;;
  ret rowid.

(** The [SET status='exported'] of the document update, on one row. *)
Definition set_exported (r : Document.t) : Document.t :=
  Document.mk (Document.id r) (Document.template_id r)
              (Document.template_name r) (Document.title r)
              (Document.content r) (Document.variables_used r)
              (Document.fmt r) (py "exported") (Document.created_at r).

(** [UPDATE documents SET status='exported' WHERE id=?] *)
Definition update_document_exported (doc_id : Z) : M unit :=
  let* d := get_conn in
  set_conn (mk_database (templates d)
    (map (fun r =>
            if bool_decide (Document.id r = doc_id) then set_exported r
            else r) (documents d))
    (export_records d)).

(** ** The engine *)

(** The text of [name] between its slashes. *)
Fixpoint split_slash (name : str) : list str :=
  match name with
  | [] => [[]]
  | c :: name' =>
      if c =? 47 then [] :: split_slash name'
      else match split_slash name' with
           | p :: ps => (c :: p) :: ps
           | [] => [[c]]
           end
  end.

(** The components that [pathlib] keeps of a name: all but the empty ones
    and the dots. *)
Definition path_parts (name : str) : list str :=
  List.filter (fun p => negb (bool_decide (p = []) || bool_decide (p = py ".")))
              (split_slash name).

(** [str(dir / name)] for the text [dir] of an absolute path and a [name]
    that does not begin with a slash: the components of the name follow
    the directory, one separator before each, and the root is its own
    separator. *)
Definition path_join (dir name : str) : str :=
  fold_left (fun acc p => if bool_decide (acc = py "/") then acc ++ p
                          else acc ++ py "/" ++ p)
            (path_parts name) dir.

(** [DOCS_DIR = Path.home() / ".blackroad" / "documents"] *)
Definition DOCS_DIR (e : process_env) : str :=
  path_join (path_join (home e) (py ".blackroad")) (py "documents").

(** [DocumentEngine.create_template]: upsert, with a version bump on
    update. *)
Definition create_template (name content category : str) (now : datetime)
  : M Template.t :=
  let variables := json_dumps_list (_extract_vars content) in
  let ts := isoformat now in
  let* existing := select_template name in
  let* (tid, ver) :=
    match existing with
    | Some row =>
        let ver := (Template.version row + 1)%Z in
        update_template content variables category ver ts name ;;
        commit ;;
        ret (Template.id row, ver)
    | None =>
        let ver := 1%Z in
        let* tid :=
          insert_template name content variables category ver ts ts in
        commit ;;
        ret (tid, ver)
    end in
  ret (Template.mk tid name content variables category ver ts ts).

Definition template_not_found_msg (template_name : str) : str :=
  py "Template '" ++ template_name ++ py "' not found".

(** [DocumentEngine.render] *)
Definition render (template_name title : str) (variables : dict) (fmt : str)
           (now : datetime) : M Document.t :=
  let* row := select_template template_name in
  match row with
  | None => raise (KeyError (template_not_found_msg template_name))
  | Some row =>
      let* content :=
        match _render (Template.content row) variables with
        | Ok c => ret c
        | Raise exc =>
            if is_KeyError exc then raise (ValueError_from exc) else raise exc
        end in
      let ts := isoformat now in
      let* rowid :=
        insert_document (Template.id row) template_name title content
                        (json_dumps_dict variables) fmt (py "draft") ts in
      commit ;;
      ret (Document.mk rowid (Template.id row) template_name title content
                       (json_dumps_dict variables) fmt (py "draft") ts)
  end.

(** [a or b] for an optional string [a]: [None] and the empty string are
    the falsy values. *)
Definition py_or (a : option str) (b : str) : str :=
  match a with
  | Some (c :: s) => c :: s
  | Some [] => b
  | None => b
  end.

Definition ascii_isalnum (c : char) : bool :=
  ((48 <=? c) && (c <=? 57)) || ((65 <=? c) && (c <=? 90))
  || ((97 <=? c) && (c <=? 122)).

(** [\w] of a [str] pattern: alphanumeric in the Unicode sense, or the
    underscore. *)
Definition is_word (e : process_env) (c : char) : bool :=
  (c =? 95) || (if c <? 128 then ascii_isalnum c else uni_isalnum e c).

(** [re.sub(r"[^\w\-]", "_", title)] *)
Definition safe_title_of (e : process_env) (title : str) : str :=
  map (fun c => if is_word e c || (c =? 45) then c else 95) title.

Definition document_not_found_msg (doc_id : Z) : str :=
  py "Document id=" ++ str_of_int doc_id ++ py " not found".

(** The body that [export_document] writes: its [if export_fmt == "html"
    ... elif export_fmt == "md" ...] on the content of the row. *)
Definition wrap_body (export_fmt title body : str) : str :=
  if bool_decide (export_fmt = py "html") then
    py "<!DOCTYPE html><html><head>"
    ++ py "<title>" ++ title ++ py "</title></head>"
    ++ py "<body><h1>" ++ title ++ py "</h1>"
    ++ py "<pre>" ++ body ++ py "</pre></body></html>"
  else if bool_decide (export_fmt = py "md") then
    py "# " ++ title ++ NL ++ NL ++ body ++ NL
  else body.

(** [DocumentEngine.export_document]; [now_tag] and [now] are the two
    readings of the clock. *)
Definition export_document (doc_id : Z) (fmt : option str)
           (now_tag now : datetime) : M ExportRecord.t :=
  bind_int doc_id ;;
  let* row := select_document doc_id in
  match row with
  | None => raise (KeyError (document_not_found_msg doc_id))
  | Some row =>
      let* e := get_env in
      let export_fmt := py_or fmt (Document.fmt row) in
      let safe_title := safe_title_of e (Document.title row) in
      let ts_tag := strftime_tag now_tag in
      let fname := safe_title ++ py "_" ++ ts_tag ++ py "." ++ export_fmt in
      let out_path := path_join (DOCS_DIR e) fname in
      let body := wrap_body export_fmt (Document.title row)
                            (Document.content row) in
      write_text out_path body ;;
      let* size := stat_size out_path in
      let ts := isoformat now in
      let* rowid := insert_export_record doc_id out_path export_fmt size ts in
      update_document_exported doc_id ;;
      commit ;;
      ret (ExportRecord.mk rowid doc_id out_path export_fmt size ts)
  end.

(** ** Listing and statistics *)

(** The order of SQLite's default collation on two texts: [memcmp] on
    their bytes, and the shorter one first when it is a prefix of the
    other. *)
Fixpoint bytes_le (a b : list N) : bool :=
  match a, b with
  | [], _ => true
  | _ :: _, [] => false
  | x :: a', y :: b' =>
      if x <? y then true else if y <? x then false else bytes_le a' b'
  end.

(** The texts are stored in UTF-8. *)
Definition text_le (a b : str) : bool :=
  bytes_le (utf8_encode a) (utf8_encode b).

(** [ORDER BY]: the rows in the order [le] of their keys.  Rows with equal
    keys, whose order SQLite leaves open, stay in the order of the
    table. *)
Fixpoint insert_by {A} (le : A -> A -> bool) (x : A) (l : list A) : list A :=
  match l with
  | [] => [x]
  | y :: l' => if le x y then x :: l else y :: insert_by le x l'
  end.

Definition order_by {A} (le : A -> A -> bool) (l : list A) : list A :=
  foldr (insert_by le) [] l.

(** [LIMIT ?]: a negative limit is no limit. *)
Definition sql_limit {A} (limit : Z) (l : list A) : list A :=
  if (limit <? 0)%Z then l else take (Z.to_nat limit) l.

(** A row of [list_documents], as the [dict] made of it. *)
Module DocumentRow.
Record t : Type := mk {
  id : Z;
  template_name : str;
  title : str;
  fmt : str;
  status : str;
  created_at : str
}.
End DocumentRow.

(** A row of [list_templates], as the [dict] made of it. *)
Module TemplateRow.
Record t : Type := mk {
  name : str;
  category : str;
  version : Z;
  variables : str;
  updated_at : str
}.
End TemplateRow.

(** The [dict] that [pipeline_status] returns, by key. *)
Module PipelineStatus.
Record t : Type := mk {
  templates : Z;
  documents : Z;
  drafts : Z;
  exported : Z;
  total_exports : Z
}.
End PipelineStatus.

Definition document_row (r : Document.t) : DocumentRow.t :=
  DocumentRow.mk (Document.id r) (Document.template_name r)
                 (Document.title r) (Document.fmt r) (Document.status r)
                 (Document.created_at r).

Definition template_row (r : Template.t) : TemplateRow.t :=
  TemplateRow.mk (Template.name r) (Template.category r)
                 (Template.version r) (Template.variables r)
                 (Template.updated_at r).

(** [DocumentEngine.list_documents]: [SELECT id, template_name, title, fmt,
    status, created_at FROM documents ORDER BY created_at DESC LIMIT ?]. *)
Definition list_documents (limit : Z) : M (list DocumentRow.t) :=
  bind_int limit ;;
  let* d := get_conn in
  ret (map document_row
           (sql_limit limit
              (order_by (fun a b => text_le (Document.created_at b)
                                            (Document.created_at a))
                        (documents d)))).

(** [DocumentEngine.list_templates]: [SELECT name, category, version,
    variables, updated_at FROM templates ORDER BY name]. *)
Definition list_templates : M (list TemplateRow.t) :=
  let* d := get_conn in
  ret (map template_row
           (order_by (fun a b => text_le (Template.name a) (Template.name b))
                     (templates d))).

(** [SELECT COUNT( * ) FROM ... WHERE status=?] *)
Definition count_status (status : str) (docs : list Document.t) : Z :=
  Z.of_nat (length (filter (fun r => Document.status r = status) docs)).

(** [DocumentEngine.pipeline_status] *)
Definition pipeline_status : M PipelineStatus.t :=
  let* db := get_conn in
  ret (PipelineStatus.mk
         (Z.of_nat (length (templates db)))
         (Z.of_nat (length (documents db)))
         (count_status (py "draft") (documents db))
         (count_status (py "exported") (documents db))
         (Z.of_nat (length (export_records db)))).

(** ** Histories of calls *)

Inductive call : Type :=
| CreateTemplate (name content category : str) (now : datetime)
| Render (template_name title : str) (variables : dict) (fmt : str)
         (now : datetime)
| ExportDocument (doc_id : Z) (fmt : option str) (now_tag now : datetime).

Definition succeeded {A} (r : result A * world) : bool :=
  match r.1 with Ok _ => true | Raise _ => false end.

(** The state a call leaves, whether it returned or raised. *)
Definition step (w : world) (c : call) : world :=
  match c with
  | CreateTemplate n c g t => (create_template n c g t w).2
  | Render n t v f d => (render n t v f d w).2
  | ExportDocument i f t1 t2 => (export_document i f t1 t2 w).2
  end.

Definition call_succeeds (w : world) (c : call) : bool :=
  match c with
  | CreateTemplate n c g t => succeeded (create_template n c g t w)
  | Render n t v f d => succeeded (render n t v f d w)
  | ExportDocument i f t1 t2 => succeeded (export_document i f t1 t2 w)
  end.

Definition run (w : world) (cs : list call) : world := fold_left step cs w.

(** A successful export of document [d] occurred during [cs], started in
    [w]. *)
Definition exported_during (w : world) (cs : list call) (d : Z) : Prop :=
  exists cs1 f t1 t2 cs2,
    cs = cs1 ++ ExportDocument d f t1 t2 :: cs2
    /\ call_succeeds (run w cs1) (ExportDocument d f t1 t2) = true.

(** ** Vocabulary of the properties *)

(** A value that cannot take part in a placeholder: not empty, no brace. *)
Definition plain_value (v : str) : Prop :=
  v <> [] /\ (LBRACE ∉ v) /\ (RBRACE ∉ v).

(** Every placeholder of the text has a plain value in the mapping. *)
Definition plain_values (variables : dict) (content : str) : Prop :=
  forall g, g ∈ re_findall content ->
    exists v, replace variables g = Ok v /\ plain_value v.

(** The readings of the clock whose fields print in their full width. *)
Definition valid_datetime (t : datetime) : Prop :=
  1000 <= year t < 10000 /\ 1 <= month t <= 12 /\ 1 <= day t <= 31
  /\ hour t < 24 /\ minute t < 60 /\ second t < 60
  /\ microsecond t < 1000000.

(** The calls of a history that returned, in order. *)
Fixpoint returned (w : world) (cs : list call) : list call :=
  match cs with
  | [] => []
  | c :: cs' =>
      (if call_succeeds w c then [c] else []) ++ returned (step w c) cs'
  end.

Definition is_render (c : call) : bool :=
  match c with Render _ _ _ _ _ => true | _ => false end.

Definition is_export (c : call) : bool :=
  match c with ExportDocument _ _ _ _ => true | _ => false end.

(** The upserts of one name in a history: content, category and time. *)
Definition upserts (name : str) (cs : list call)
  : list (str * str * datetime) :=
  flat_map (fun c => match c with
                     | CreateTemplate n c g t =>
                         if bool_decide (n = name) then [(c, g, t)] else []
                     | _ => []
                     end) cs.

(** The names upserted in a history, one entry for each call. *)
Definition created_names (cs : list call) : list str :=
  flat_map (fun c => match c with
                     | CreateTemplate n _ _ _ => [n]
                     | _ => []
                     end) cs.

(** The clock readings of the renders called in a history. *)
Definition render_times (cs : list call) : list datetime :=
  flat_map (fun c => match c with
                     | Render _ _ _ _ now => [now]
                     | _ => []
                     end) cs.

(** The row ids of a table with [n] rows that were inserted one after the
    other. *)
Definition rowids (n : nat) : list Z := map Z.of_nat (seq 1 n).

(** Two document rows that differ at most in their status. *)
Definition same_document (a b : Document.t) : Prop :=
  Document.id a = Document.id b
  /\ Document.template_id a = Document.template_id b
  /\ Document.template_name a = Document.template_name b
  /\ Document.title a = Document.title b
  /\ Document.content a = Document.content b
  /\ Document.variables_used a = Document.variables_used b
  /\ Document.fmt a = Document.fmt b
  /\ Document.created_at a = Document.created_at b.

(** The integers that SQLite stores. *)
Definition int64 (n : Z) : Prop := (- 2 ^ 63 <= n < 2 ^ 63)%Z.

(** [t] is earlier than [u]. *)
Definition datetime_lt (t u : datetime) : Prop :=
  year t < year u
  \/ (year t = year u
      /\ (month t < month u
          \/ (month t = month u
              /\ (day t < day u
                  \/ (day t = day u
                      /\ (hour t < hour u
                          \/ (hour t = hour u
                              /\ (minute t < minute u
                                  \/ (minute t = minute u
                                      /\ (second t < second u
                                          \/ (second t = second u
                                              /\ microsecond t
                                                 < microsecond u))))))))))).

(** The path at which an export of the row [row] writes, for the format
    override [fmt] and the reading [now_tag] of the clock. *)
Definition export_path_of (e : process_env) (row : Document.t)
           (fmt : option str) (now_tag : datetime) : str :=
  path_join (DOCS_DIR e)
            (safe_title_of e (Document.title row) ++ py "_"
             ++ strftime_tag now_tag ++ py "."
             ++ py_or fmt (Document.fmt row)).

(** The timestamp tags of the exports called in a history. *)
Definition export_tags (cs : list call) : list str :=
  flat_map (fun c => match c with
                     | ExportDocument _ _ now_tag _ => [strftime_tag now_tag]
                     | _ => []
                     end) cs.

(** ** Sample data *)

Definition greeting : str := py "Hello {{name}}, you owe {{amount}}".
Definition alice_only : dict := [(py "name", py "Alice")].
Definition alice_42 : dict := [(py "name", py "Alice"); (py "amount", py "42")].

(** The file system of the samples: the export directory is there and has
    no subdirectory, and a file name holds at most 255 bytes. *)
Definition demo_fs (path : str) : bool :=
  let name := List.last (split_slash path) [] in
  bool_decide (take (length path - length name) path
               = py "/home/blackroad/.blackroad/documents/")
  && (length (utf8_encode name) <=? 255)%nat.

(** An environment for the samples, which are ASCII: the table for the
    code points from 128 on is not looked at. *)
Definition demo_env : process_env :=
  mk_env (py "/home/blackroad") (fun _ => false) demo_fs.
Definition new_year_2024 : datetime := mk_datetime 2024 1 1 0 0 0 0.
Definition new_year_2025 : datetime := mk_datetime 2025 1 1 0 0 0 0.
Definition fresh_world : world := init_world demo_env ∅.

(** One template, two invoices rendered from it under one title, and an
    export of the first, all in the first second of 2024. *)
Definition two_invoices : list call :=
  [CreateTemplate (py "invoice") (py "Total: {{n}}") (py "general")
                  new_year_2024;
   Render (py "invoice") (py "Invoice #1") [(py "n", py "10")] (py "txt")
          new_year_2024;
   Render (py "invoice") (py "Invoice #1") [(py "n", py "20")] (py "txt")
          new_year_2024;
   ExportDocument 1 None new_year_2024 new_year_2024].


(** A template, a render in 2024 and a render in 2025. *)
Definition two_years : list call :=
  [CreateTemplate (py "invoice") (py "Total: {{n}}") (py "general")
                  new_year_2024;
   Render (py "invoice") (py "First") [(py "n", py "10")] (py "txt")
          new_year_2024;
   Render (py "invoice") (py "Second") [(py "n", py "20")] (py "md")
          new_year_2025].

(** * Properties *)

(** Fields of the records built by the methods. *)
Ltac fields :=
  cbn [Template.id Template.name Template.content Template.variables
       Template.category Template.version Template.created_at
       Template.updated_at
       Document.id Document.template_id Document.template_name
       Document.title Document.content Document.variables_used Document.fmt
       Document.status Document.created_at
       ExportRecord.id ExportRecord.document_id ExportRecord.export_path
       ExportRecord.export_format ExportRecord.file_size_bytes
       ExportRecord.exported_at
       env conn committed files templates documents export_records
       fst snd].

(** The update of a row leaves its key as it is. *)
Ltac key_stable :=
  let r := fresh "r" in
  let E := fresh "E" in
  intros r;
  match goal with
  | |- context [if bool_decide ?P then _ else _] =>
      destruct (bool_decide P) eqn:E; cbn; done
  end.

(** ** The placeholder pattern *)

Lemma span_name_app (s : str) :
  (span_name s).1 ++ (span_name s).2 = s.
Proof.
  induction s as [|c s IH]; simpl; [done|].
  destruct (c =? RBRACE); [done|].
  destruct (span_name s) as [g r]; simpl in *. by rewrite IH.
Qed.

Lemma span_name_no_rbrace (s : str) : RBRACE ∉ (span_name s).1.
Proof.
  induction s as [|c s IH]; simpl; [apply not_elem_of_nil|].
  destruct (N.eqb_spec c RBRACE) as [->|Hc]; [apply not_elem_of_nil|].
  destruct (span_name s) as [g r]; simpl in *.
  rewrite elem_of_cons. intros [?|?]; [congruence|done].
Qed.

Lemma span_name_stop (g rest : str) :
  RBRACE ∉ g -> span_name (g ++ RBRACE :: rest) = (g, RBRACE :: rest).
Proof.
  induction g as [|c g IH]; simpl; intros Hg.
  - reflexivity.
  - rewrite not_elem_of_cons in Hg. destruct Hg as [Hc Hg].
    destruct (N.eqb_spec c RBRACE) as [->|_]; [done|].
    by rewrite (IH Hg).
Qed.

(** The matcher decides the pattern: it answers [(g, rest)] exactly when
    the text is two opening braces, a non-empty name [g] free of the closing
    brace, two closing braces, and [rest]. *)
Lemma match_placeholder_spec (s g rest : str) :
  match_placeholder s = Some (g, rest)
  <-> g <> [] /\ (RBRACE ∉ g)
      /\ s = [LBRACE; LBRACE] ++ g ++ [RBRACE; RBRACE] ++ rest.
Proof.
  split.
  - destruct s as [|c1 [|c2 s1]]; simpl; try done.
    destruct (N.eqb_spec c1 LBRACE) as [->|]; simpl; [|done].
    destruct (N.eqb_spec c2 LBRACE) as [->|]; simpl; [|done].
    pose proof (span_name_app s1) as Happ.
    pose proof (span_name_no_rbrace s1) as Hno.
    destruct (span_name s1) as [[|c g'] [|r1 [|r2 r]]]; simpl in *; try done.
    destruct (N.eqb_spec r1 RBRACE) as [->|]; simpl; [|done].
    destruct (N.eqb_spec r2 RBRACE) as [->|]; simpl; [|done].
    intros [= <- <-]. split; [done|]. split; [done|].
    by rewrite <- Happ.
  - intros (Hne & Hno & ->). simpl.
    rewrite (span_name_stop g (RBRACE :: rest) Hno).
    destruct g; [done|]. reflexivity.
Qed.

Lemma match_placeholder_length (s g rest : str) :
  match_placeholder s = Some (g, rest) ->
  length s = (4 + length g + length rest)%nat.
Proof.
  intros H. apply match_placeholder_spec in H as (_ & _ & ->).
  simpl. rewrite length_app. simpl. lia.
Qed.

(** Enough fuel: the scans do not depend on it. *)
Lemma re_sub_fuel_enough (repl : str -> result str) (n m : nat) (s : str) :
  (length s < n)%nat -> (length s < m)%nat ->
  re_sub_fuel n repl s = re_sub_fuel m repl s.
Proof.
  revert m s. induction n as [|n IH]; intros [|m] s Hn Hm; try lia.
  simpl. destruct (match_placeholder s) as [[g rest]|] eqn:Hm'.
  - apply match_placeholder_length in Hm'.
    rewrite (IH m rest) by lia. reflexivity.
  - destruct s as [|c s']; [done|]. simpl in *.
    rewrite (IH m s') by lia. reflexivity.
Qed.

Lemma re_findall_fuel_enough (n m : nat) (s : str) :
  (length s < n)%nat -> (length s < m)%nat ->
  re_findall_fuel n s = re_findall_fuel m s.
Proof.
  revert m s. induction n as [|n IH]; intros [|m] s Hn Hm; try lia.
  simpl. destruct (match_placeholder s) as [[g rest]|] eqn:Hm'.
  - apply match_placeholder_length in Hm'.
    rewrite (IH m rest) by lia. reflexivity.
  - destruct s as [|c s']; [done|]. simpl in *.
    rewrite (IH m s') by lia. reflexivity.
Qed.

(** The scans, one step at a time. *)
Lemma re_sub_fuel_S (repl : str -> result str) (n : nat) (s : str) :
  re_sub_fuel (S n) repl s =
    match match_placeholder s with
    | Some (g, rest) =>
        match repl g with
        | Raise e => Raise e
        | Ok v => match re_sub_fuel n repl rest with
                  | Raise e => Raise e
                  | Ok out => Ok (v ++ out)
                  end
        end
    | None =>
        match s with
        | [] => Ok []
        | c :: s' => match re_sub_fuel n repl s' with
                     | Raise e => Raise e
                     | Ok out => Ok (c :: out)
                     end
        end
    end.
Proof. reflexivity. Qed.

Lemma re_findall_fuel_S (n : nat) (s : str) :
  re_findall_fuel (S n) s =
    match match_placeholder s with
    | Some (g, rest) => g :: re_findall_fuel n rest
    | None => match s with [] => [] | _ :: s' => re_findall_fuel n s' end
    end.
Proof. reflexivity. Qed.

Lemma re_sub_nil (repl : str -> result str) : re_sub repl [] = Ok [].
Proof. reflexivity. Qed.

Lemma re_sub_match (repl : str -> result str) (s g rest : str) :
  match_placeholder s = Some (g, rest) ->
  re_sub repl s =
    match repl g with
    | Raise e => Raise e
    | Ok v => match re_sub repl rest with
              | Raise e => Raise e
              | Ok out => Ok (v ++ out)
              end
    end.
Proof.
  intros H. unfold re_sub at 1. simpl. rewrite H.
  pose proof (match_placeholder_length _ _ _ H).
  unfold re_sub. rewrite (re_sub_fuel_enough repl (length s) (S (length rest)))
    by lia. reflexivity.
Qed.

Lemma re_sub_skip (repl : str -> result str) (c : char) (s : str) :
  match_placeholder (c :: s) = None ->
  re_sub repl (c :: s) =
    match re_sub repl s with
    | Raise e => Raise e
    | Ok out => Ok (c :: out)
    end.
Proof. intros H. unfold re_sub at 1. rewrite re_sub_fuel_S, H. reflexivity. Qed.

Lemma re_findall_nil : re_findall [] = [].
Proof. reflexivity. Qed.

Lemma re_findall_match (s g rest : str) :
  match_placeholder s = Some (g, rest) ->
  re_findall s = g :: re_findall rest.
Proof.
  intros H. unfold re_findall at 1. simpl. rewrite H.
  pose proof (match_placeholder_length _ _ _ H).
  unfold re_findall. rewrite (re_findall_fuel_enough (length s) (S (length rest)))
    by lia. reflexivity.
Qed.

Lemma re_findall_skip (c : char) (s : str) :
  match_placeholder (c :: s) = None -> re_findall (c :: s) = re_findall s.
Proof. intros H. unfold re_findall at 1. rewrite re_findall_fuel_S, H. reflexivity. Qed.

(** Induction along a scan: the empty text, a character at which the
    pattern does not match, or a match followed by the rest. *)
Lemma scan_ind (P : str -> Prop) :
  P [] ->
  (forall c s, match_placeholder (c :: s) = None -> P s -> P (c :: s)) ->
  (forall s g rest, match_placeholder s = Some (g, rest) -> P rest -> P s) ->
  forall s, P s.
Proof.
  intros Hnil Hskip Hmatch s.
  remember (length s) as n eqn:Hn. revert s Hn.
  induction n as [n IH] using lt_wf_ind. intros s ->.
  destruct (match_placeholder s) as [[g rest]|] eqn:Hm.
  - apply (Hmatch _ _ _ Hm).
    apply (IH (length rest)); [|done].
    apply match_placeholder_length in Hm. lia.
  - destruct s as [|c s']; [done|].
    apply (Hskip _ _ Hm). apply (IH (length s')); [simpl; lia|done].
Qed.

(** ** Trimming *)

Lemma lstrip_spec (s : str) :
  exists l, s = l ++ lstrip s /\ Forall (fun c => py_isspace c = true) l
            /\ (forall c t, lstrip s = c :: t -> py_isspace c = false).
Proof.
  induction s as [|c s (l & Hs & Hl & Hh)]; simpl.
  - exists []. by repeat split.
  - destruct (py_isspace c) eqn:Hc.
    + exists (c :: l). split; [by rewrite Hs at 1|].
      split; [by constructor|done].
    + exists []. split; [done|]. split; [constructor|].
      by intros ? ? [= <- _].
Qed.

Lemma rstrip_spec (s : str) :
  exists r, s = rstrip s ++ r /\ Forall (fun c => py_isspace c = true) r
            /\ (forall t c, rstrip s = t ++ [c] -> py_isspace c = false).
Proof.
  unfold rstrip. destruct (lstrip_spec (rev s)) as (l & Hs & Hl & Hh).
  exists (rev l). split; [|split].
  - rewrite <- rev_app_distr, <- Hs. by rewrite rev_involutive.
  - apply Forall_forall. intros c Hc. rewrite Forall_forall in Hl.
    apply Hl. apply list_elem_of_In. apply list_elem_of_In in Hc.
    by apply in_rev.
  - intros t c Heq. apply (Hh c (rev t)).
    rewrite <- (rev_involutive (lstrip (rev s))), Heq, rev_app_distr. done.
Qed.

(** [strip] cuts whitespace, and nothing else, from both ends. *)
Lemma strip_spec (s : str) :
  exists l r,
    s = l ++ strip s ++ r
    /\ Forall (fun c => py_isspace c = true) l
    /\ Forall (fun c => py_isspace c = true) r
    /\ (forall c t, strip s = c :: t -> py_isspace c = false)
    /\ (forall t c, strip s = t ++ [c] -> py_isspace c = false).
Proof.
  unfold strip. destruct (lstrip_spec s) as (l & Hs & Hl & Hh).
  destruct (rstrip_spec (lstrip s)) as (r & Ht & Hr & Hlast).
  exists l, r. split; [by rewrite <- Ht|]. split; [done|]. split; [done|].
  split; [|done]. intros c t Heq. rewrite Heq in Ht. simpl in Ht.
  by apply (Hh c (t ++ r)).
Qed.

(** ** The placeholder extractor *)

(** What [dict.fromkeys] adds to the keys it already holds: the new keys,
    once each, in the order in which they first come. *)
Lemma fromkeys_fold (names acc : list str) :
  exists added : list str,
    fold_left (fun acc k => if bool_decide (k ∈ acc) then acc else acc ++ [k])
              names acc = acc ++ added
    /\ NoDup added
    /\ (forall x, x ∈ added <-> x ∈ names /\ x ∉ acc)
    /\ (forall i j x y,
          added !! i = Some x -> added !! j = Some y -> (i < j)%nat ->
          exists n, names !! n = Some x /\ (y ∉ take n names)).
Proof.
  revert acc. induction names as [|k ns IH]; intros acc; simpl.
  - exists []. rewrite app_nil_r. split; [done|]. split; [constructor|].
    split.
    + intros x. split; [by intros ?%elem_of_nil|by intros [?%elem_of_nil _]].
    + intros i j x y Hi. by rewrite lookup_nil in Hi.
  - case_bool_decide as Hk.
    + destruct (IH acc) as (added & Heq & Hnd & Hmem & Hord).
      exists added. split; [done|]. split; [done|]. split.
      * intros x. rewrite Hmem, elem_of_cons. split; [tauto|].
        intros [[->|?] ?]; [done|tauto].
      * intros i j x y Hi Hj Hlt.
        destruct (Hord i j x y Hi Hj Hlt) as (n & Hn & Hy).
        exists (S n). split; [done|]. simpl.
        rewrite not_elem_of_cons. split; [|done].
        intros ->. apply list_elem_of_lookup_2 in Hj.
        apply Hmem in Hj as [_ Hj]. done.
    + destruct (IH (acc ++ [k])) as (added & Heq & Hnd & Hmem & Hord).
      exists (k :: added). split; [by rewrite Heq, <- app_assoc|].
      assert (Hfresh : forall x, x ∈ added -> x <> k /\ (x ∉ acc) /\ x ∈ ns).
      { intros x Hx. apply Hmem in Hx as [Hx1 Hx2].
        rewrite elem_of_app, list_elem_of_singleton in Hx2. tauto. }
      split; [|split].
      * constructor; [|done]. intros Hin. by apply Hfresh in Hin as [? _].
      * intros x. rewrite !elem_of_cons, Hmem, elem_of_app,
          list_elem_of_singleton.
        destruct (decide (x = k)) as [->|Hne]; [tauto|]. tauto.
      * intros [|i] [|j] x y Hi Hj Hlt; try lia; simpl in *.
        -- injection Hi as <-. exists 0%nat. split; [done|].
           simpl. apply not_elem_of_nil.
        -- destruct (Hord i j x y Hi Hj ltac:(lia)) as (n & Hn & Hy).
           exists (S n). split; [done|]. simpl.
           rewrite not_elem_of_cons. split; [|done].
           apply list_elem_of_lookup_2 in Hj. by apply Hfresh in Hj as [? _].
Qed.

Lemma no_match_findall (content : str) :
  (forall pre suf, content = pre ++ suf -> match_placeholder suf = None) ->
  re_findall content = [].
Proof.
  induction content as [|c s IH]; intros H; [done|].
  rewrite re_findall_skip by (apply (H []); done).
  apply IH. intros pre suf ->. apply (H (c :: pre)). done.
Qed.

Lemma extract_vars_names (content : str) :
  NoDup (_extract_vars content)
  /\ (forall x, x ∈ _extract_vars content <-> x ∈ map strip (re_findall content)).
Proof.
  unfold _extract_vars, dict_fromkeys.
  destruct (fromkeys_fold (map strip (re_findall content)) [])
    as (added & Heq & Hnd & Hmem & _).
  rewrite Heq. simpl. split; [done|]. intros x. rewrite Hmem.
  split; [tauto|]. intros ?. split; [done|apply not_elem_of_nil].
Qed.

(** C3. The extractor returns the distinct trimmed placeholder names in
    the order of their first occurrence: no name twice; exactly the names of
    the matches, each cut of the whitespace around it and of nothing else; a
    name listed earlier occurs in the text before any occurrence of a name
    listed later; a text in which the pattern matches nowhere gives the
    empty list, and ["{{b}} {{a}} {{b}}"] gives [["b"; "a"]]. *)
Theorem extract_vars_first_occurrence (content : str) :
  let names := map strip (re_findall content) in
  let vars := _extract_vars content in
  NoDup vars
  /\ (forall x, x ∈ vars <-> x ∈ names)
  /\ (forall x, x ∈ vars ->
        exists g l r,
          g ∈ re_findall content /\ g = l ++ x ++ r
          /\ Forall (fun c => py_isspace c = true) l
          /\ Forall (fun c => py_isspace c = true) r
          /\ (forall c t, x = c :: t -> py_isspace c = false)
          /\ (forall t c, x = t ++ [c] -> py_isspace c = false))
  /\ (forall i j x y,
        vars !! i = Some x -> vars !! j = Some y -> (i < j)%nat ->
        exists n, names !! n = Some x /\ (y ∉ take n names))
  /\ ((forall pre suf, content = pre ++ suf -> match_placeholder suf = None)
      -> vars = [])
  /\ _extract_vars (py "{{b}} {{a}} {{b}}") = [py "b"; py "a"].
Proof.
  intros names vars. subst vars. unfold _extract_vars, dict_fromkeys.
  fold names.
  destruct (fromkeys_fold names []) as (added & Heq & Hnd & Hmem & Hord).
  rewrite Heq. simpl. split; [done|]. split; [|split; [|split; [|split]]].
  - intros x. rewrite Hmem. split; [tauto|].
    intros ?. split; [done|apply not_elem_of_nil].
  - intros x [Hx _]%Hmem. subst names.
    apply list_elem_of_fmap in Hx as (g & -> & Hg).
    destruct (strip_spec g) as (l & r & Hs & Hl & Hr & Hhead & Hlast).
    exists g, l, r. done.
  - done.
  - intros Hno. subst names. rewrite (no_match_findall content Hno) in Heq.
    simpl in Heq. by rewrite <- Heq.
  - reflexivity.
Qed.

(** ** The substitution engine *)

Lemma dict_has_get (d : dict) (k : str) :
  dict_has d k = true <-> is_Some (dict_get d k).
Proof.
  unfold dict_has. destruct (dict_get d k); split; done.
Qed.

Lemma dict_has_false (d : dict) (k : str) :
  dict_has d k = false <-> dict_get d k = None.
Proof. unfold dict_has. by destruct (dict_get d k). Qed.

Lemma extract_vars_elem_of (content : str) (k : str) :
  k ∈ _extract_vars content <-> exists g, g ∈ re_findall content /\ k = strip g.
Proof.
  destruct (extract_vars_names content) as [_ Hmem].
  rewrite Hmem, list_elem_of_fmap. split; intros (g & ? & ?); eauto.
Qed.

(** What a substitution returns: a text when every placeholder has its
    variable, and otherwise the exception for the first placeholder, in the
    order of the text, that has none. *)
Lemma render_outcome (variables : dict) (content : str) :
  match _render content variables with
  | Ok _ =>
      forall g, g ∈ re_findall content -> is_Some (dict_get variables (strip g))
  | Raise e =>
      exists g, g ∈ re_findall content
                /\ dict_get variables (strip g) = None
                /\ e = KeyError (missing_variable_msg (strip g))
  end.
Proof.
  unfold _render. induction content as [|c s Hm IH|s g rest Hm IH] using scan_ind.
  - rewrite re_sub_nil, re_findall_nil. by intros g ?%elem_of_nil.
  - rewrite (re_sub_skip _ _ _ Hm), (re_findall_skip _ _ Hm).
    by destruct (re_sub (replace variables) s).
  - rewrite (re_sub_match _ _ _ _ Hm), (re_findall_match _ _ _ Hm).
    unfold replace at 1.
    destruct (dict_get variables (strip g)) as [v|] eqn:Hg.
    + destruct (re_sub (replace variables) rest) as [out|e].
      * intros g' [->|Hin]%elem_of_cons; [by eexists|by apply IH].
      * destruct IH as (g' & Hin & Hnone & ->).
        exists g'. rewrite elem_of_cons. tauto.
    + exists g. rewrite elem_of_cons. tauto.
Qed.

(** The rendered text, piece by piece: the input is literal text
    interleaved with its placeholders, and the output is the same literal
    text with each placeholder replaced by its value. *)
Lemma render_pieces (variables : dict) (content : str) :
  (forall g, g ∈ re_findall content -> is_Some (dict_get variables (strip g))) ->
  exists (pieces : list (str * str * str)) (tail : str),
    content = flat_map (fun '(lit, g, _) => lit ++ placeholder_token g) pieces
              ++ tail
    /\ re_findall content = map (fun '(_, g, _) => g) pieces
    /\ Forall (fun '(_, g, v) => dict_get variables (strip g) = Some v) pieces
    /\ _render content variables
       = Ok (flat_map (fun '(lit, _, v) => lit ++ v) pieces ++ tail).
Proof.
  unfold _render. induction content as [|c s Hm IH|s g rest Hm IH] using scan_ind;
    intros Hcov.
  - exists [], []. repeat split; constructor.
  - rewrite (re_findall_skip _ _ Hm) in Hcov |- *.
    rewrite (re_sub_skip _ _ _ Hm).
    destruct (IH Hcov) as (pieces & tail & Hs & Hf & Hv & Hr).
    rewrite Hr. destruct pieces as [|[[lit g] v] pieces].
    + exists [], (c :: tail). simpl in Hs, Hf |- *. subst s. by repeat split.
    + exists ((c :: lit, g, v) :: pieces), tail. simpl in Hs, Hf |- *.
      split; [by f_equal|]. split; [done|]. split; [|done].
      inversion Hv; subst. by constructor.
  - rewrite (re_findall_match _ _ _ Hm) in Hcov |- *.
    rewrite (re_sub_match _ _ _ _ Hm).
    destruct (IH (fun g' H => Hcov g' (list_elem_of_further _ _ _ H)))
      as (pieces & tail & Hs & Hf & Hv & Hr).
    destruct (Hcov g (list_elem_of_here _ _)) as [v Hg].
    unfold replace at 1. rewrite Hg, Hr.
    exists (([], g, v) :: pieces), tail. simpl.
    apply match_placeholder_spec in Hm as (_ & _ & Hshape).
    split.
    { rewrite Hshape. rewrite Hs at 1. unfold placeholder_token. simpl.
      by rewrite <- !app_assoc. }
    split; [by rewrite Hf|]. split; [by constructor|].
    by rewrite app_assoc.
Qed.

(** *** Plain values leave no placeholder behind *)

Lemma plain_values_skip (variables : dict) (c : char) (s : str) :
  match_placeholder (c :: s) = None ->
  plain_values variables (c :: s) -> plain_values variables s.
Proof. intros Hm H g Hg. apply H. by rewrite (re_findall_skip _ _ Hm). Qed.

Lemma plain_values_match (variables : dict) (s g rest : str) :
  match_placeholder s = Some (g, rest) -> plain_values variables s ->
  (exists v, replace variables g = Ok v /\ plain_value v)
  /\ plain_values variables rest.
Proof.
  intros Hm H. split.
  - apply H. rewrite (re_findall_match _ _ _ Hm). apply list_elem_of_here.
  - intros g' Hg'. apply H. rewrite (re_findall_match _ _ _ Hm).
    by apply list_elem_of_further.
Qed.

(** A brace at the head of the output is a brace at the head of the
    input, at which the pattern did not match. *)
Lemma render_brace_head (variables : dict) (s : str) (c : char) (out : str) :
  plain_values variables s -> c = LBRACE \/ c = RBRACE ->
  _render s variables = Ok (c :: out) ->
  exists s', s = c :: s' /\ match_placeholder s = None
             /\ _render s' variables = Ok out.
Proof.
  unfold _render. intros Hp Hc Hr.
  destruct (match_placeholder s) as [[g rest]|] eqn:Hm.
  - destruct (plain_values_match _ _ _ _ Hm Hp)
      as [(v & Hv & Hne & HL & HR) _].
    rewrite (re_sub_match _ _ _ _ Hm), Hv in Hr.
    destruct (re_sub (replace variables) rest) as [o|]; [|done].
    destruct v as [|x v]; [done|]. injection Hr as -> _.
    rewrite not_elem_of_cons in HL, HR. destruct HL as [HL _], HR as [HR _].
    destruct Hc; congruence.
  - destruct s as [|c0 s']; [done|].
    rewrite (re_sub_skip _ _ _ Hm) in Hr.
    destruct (re_sub (replace variables) s') as [o|] eqn:Hs'; [|done].
    injection Hr as -> ->. by exists s'.
Qed.

(** If the output begins with a name and two closing braces, so does the
    input, with a name that is empty only if the output's is. *)
Lemma render_closing (variables : dict) (s : str) :
  forall g r,
    plain_values variables s -> RBRACE ∉ g ->
    _render s variables = Ok (g ++ RBRACE :: RBRACE :: r) ->
    exists g0 r0, s = g0 ++ RBRACE :: RBRACE :: r0 /\ (RBRACE ∉ g0)
                  /\ (g <> [] -> g0 <> []).
Proof.
  induction s as [|c s Hm IH|s g1 rest Hm IH] using scan_ind;
    intros g r Hp Hg Hr.
  - by destruct g.
  - unfold _render in Hr. rewrite (re_sub_skip _ _ _ Hm) in Hr.
    destruct (re_sub (replace variables) s) as [out|] eqn:Hs; [|done].
    pose proof (plain_values_skip _ _ _ Hm Hp) as Hp'.
    destruct g as [|x g]; simpl in Hr.
    + injection Hr as -> ->.
      destruct (render_brace_head variables s RBRACE r Hp'
                                  (or_intror eq_refl) Hs) as (s' & -> & _).
      exists [], s'. split; [done|]. split; [apply not_elem_of_nil|done].
    + injection Hr as -> ->. rewrite not_elem_of_cons in Hg.
      destruct (IH g r Hp' (proj2 Hg) Hs) as (g0 & r0 & -> & Hg0 & _).
      exists (x :: g0), r0. split; [done|]. split; [|done].
      rewrite not_elem_of_cons. tauto.
  - apply match_placeholder_spec in Hm as (Hne & Hno & ->).
    exists ([LBRACE; LBRACE] ++ g1), rest.
    split; [by rewrite <- app_assoc|]. split; [|done].
    simpl. rewrite !not_elem_of_cons. by repeat split.
Qed.

(** With plain values the pattern matches nowhere in the output. *)
Lemma render_plain (variables : dict) (s : str) :
  plain_values variables s ->
  exists out,
    _render s variables = Ok out
    /\ forall pre suf, out = pre ++ suf -> match_placeholder suf = None.
Proof.
  induction s as [|c s Hm IH|s g rest Hm IH] using scan_ind; intros Hp.
  - exists []. split; [done|]. intros pre suf Heq.
    symmetry in Heq. apply app_eq_nil in Heq as [_ ->]. done.
  - pose proof (plain_values_skip _ _ _ Hm Hp) as Hp'.
    destruct (IH Hp') as (out & Hs & Hno).
    exists (c :: out). split.
    { unfold _render in Hs |- *. by rewrite (re_sub_skip _ _ _ Hm), Hs. }
    intros [|x pre] suf Heq; simpl in Heq.
    + subst suf.
      destruct (match_placeholder (c :: out)) as [[g r]|] eqn:Hout; [|done].
      exfalso. apply match_placeholder_spec in Hout as (Hne & Hg & Heq).
      simpl in Heq. injection Heq as -> ->.
      destruct (render_brace_head variables s LBRACE _ Hp'
                                  (or_introl eq_refl) Hs)
        as (s' & -> & Hms & Hs').
      pose proof (plain_values_skip _ _ _ Hms Hp') as Hp''.
      destruct (render_closing variables s' g r Hp'' Hg Hs')
        as (g0 & r0 & -> & Hg0 & Hne0).
      assert (Hyes : match_placeholder
                       (LBRACE :: LBRACE :: g0 ++ RBRACE :: RBRACE :: r0)
                     = Some (g0, r0)).
      { apply match_placeholder_spec. split; [auto|]. done. }
      congruence.
    + injection Heq as -> ->. by apply (Hno pre).
  - destruct (plain_values_match _ _ _ _ Hm Hp)
      as [(v & Hv & Hne & HL & HR) Hp'].
    destruct (IH Hp') as (out & Hs & Hno).
    exists (v ++ out). split.
    { unfold _render in Hs |- *. by rewrite (re_sub_match _ _ _ _ Hm), Hv, Hs. }
    intros pre suf Heq.
    apply app_eq_inv in Heq as [(k & -> & ->)|(k & -> & ->)].
    + destruct k as [|x k]; [by apply (Hno [])|].
      assert (x <> LBRACE).
      { intros ->. apply HL. rewrite elem_of_app, elem_of_cons. tauto. }
      simpl. destruct (k ++ out); [done|].
      by destruct (N.eqb_spec x LBRACE).
    + by apply (Hno k).
Qed.

(** ** The engine's methods, evaluated *)

Lemma next_rowid_fresh (ids : list Z) (i : Z) :
  i ∈ ids -> (i < next_rowid ids)%Z.
Proof.
  unfold next_rowid. induction ids as [|j ids IH]; simpl.
  - by intros ?%elem_of_nil.
  - intros [->|Hin]%elem_of_cons; [lia|]. specialize (IH Hin). lia.
Qed.

Lemma find_app {A} (f : A -> bool) (l1 l2 : list A) :
  find f (l1 ++ l2)
  = match find f l1 with Some x => Some x | None => find f l2 end.
Proof.
  induction l1 as [|a l1 IH]; simpl; [done|]. by destruct (f a).
Qed.

Lemma find_none_iff {A} (f : A -> bool) (l : list A) :
  find f l = None <-> forall x, x ∈ l -> f x = false.
Proof.
  split.
  - intros H x Hx. apply list_elem_of_In in Hx. by apply (find_none f l H).
  - induction l as [|a l IH]; simpl; intros H; [done|].
    rewrite (H a) by apply list_elem_of_here.
    apply IH. intros x Hx. apply H. by apply list_elem_of_further.
Qed.

Lemma find_map_stable {A} (f : A -> bool) (g : A -> A) (l : list A) :
  (forall r, f (g r) = f r) ->
  find f (map g l) = g <$> find f l.
Proof.
  intros Hf. induction l as [|a l IH]; simpl; [done|].
  rewrite Hf. by destruct (f a).
Qed.

Lemma find_inserted_document (docs : list Document.t) (doc : Document.t) :
  Document.id doc = next_rowid (map Document.id docs) ->
  find (fun r => bool_decide (Document.id r = Document.id doc)) (docs ++ [doc])
  = Some doc.
Proof.
  intros Hid. rewrite find_app.
  destruct (find _ docs) as [d|] eqn:Hfind.
  - apply find_some in Hfind as [Hin Heq].
    apply bool_decide_eq_true_1 in Heq. apply list_elem_of_In in Hin.
    assert (Hlt : (Document.id d < next_rowid (map Document.id docs))%Z).
    { apply next_rowid_fresh. rewrite list_elem_of_fmap. eauto. }
    lia.
  - simpl. by rewrite bool_decide_eq_true_2.
Qed.

Lemma select_template_eq (name : str) (w : world) :
  select_template name w
  = (Ok (find (fun r => bool_decide (Template.name r = name))
              (templates (conn w))), w).
Proof. reflexivity. Qed.

Lemma select_document_eq (doc_id : Z) (w : world) :
  select_document doc_id w
  = (Ok (find (fun r => bool_decide (Document.id r = doc_id))
              (documents (conn w))), w).
Proof. reflexivity. Qed.

(** The create branch of the upsert. *)
Lemma create_template_new (name content category : str) (now : datetime)
      (w : world) :
  select_template name w = (Ok None, w) ->
  let t := Template.mk (next_rowid (map Template.id (templates (conn w))))
                       name content (json_dumps_list (_extract_vars content))
                       category 1 (isoformat now) (isoformat now) in
  let db := mk_database (templates (conn w) ++ [t]) (documents (conn w))
                        (export_records (conn w)) in
  create_template name content category now w
  = (Ok t, mk_world (env w) db db (files w)).
Proof.
  rewrite select_template_eq. intros [= Hfind].
  unfold create_template, bind. rewrite select_template_eq, Hfind.
  reflexivity.
Qed.

(** The update branch of the upsert. *)
Lemma create_template_existing (name content category : str) (now : datetime)
      (w : world) (row : Template.t) :
  select_template name w = (Ok (Some row), w) ->
  let variables := json_dumps_list (_extract_vars content) in
  let ver := (Template.version row + 1)%Z in
  let ts := isoformat now in
  let db := mk_database
              (map (fun r =>
                      if bool_decide (Template.name r = name)
                      then set_template content variables category ver ts r
                      else r) (templates (conn w)))
              (documents (conn w)) (export_records (conn w)) in
  create_template name content category now w
  = (Ok (Template.mk (Template.id row) name content variables category ver
                     ts ts),
     mk_world (env w) db db (files w)).
Proof.
  rewrite select_template_eq. intros [= Hfind].
  unfold create_template, bind. rewrite select_template_eq, Hfind.
  reflexivity.
Qed.

Lemma render_not_found (template_name title : str) (variables : dict)
      (fmt : str) (now : datetime) (w : world) :
  select_template template_name w = (Ok None, w) ->
  render template_name title variables fmt now w
  = (Raise (KeyError (template_not_found_msg template_name)), w).
Proof.
  rewrite select_template_eq. intros [= Hfind].
  unfold render, bind. rewrite select_template_eq, Hfind. reflexivity.
Qed.

Lemma render_missing (template_name title : str) (variables : dict)
      (fmt : str) (now : datetime) (w : world) (row : Template.t) (msg : str) :
  select_template template_name w = (Ok (Some row), w) ->
  _render (Template.content row) variables = Raise (KeyError msg) ->
  render template_name title variables fmt now w
  = (Raise (ValueError_from (KeyError msg)), w).
Proof.
  rewrite select_template_eq. intros [= Hfind] Hr.
  unfold render, bind. rewrite select_template_eq, Hfind, Hr. reflexivity.
Qed.

Lemma render_ok (template_name title : str) (variables : dict)
      (fmt : str) (now : datetime) (w : world) (row : Template.t) (out : str) :
  select_template template_name w = (Ok (Some row), w) ->
  _render (Template.content row) variables = Ok out ->
  let doc := Document.mk (next_rowid (map Document.id (documents (conn w))))
                         (Template.id row) template_name title out
                         (json_dumps_dict variables) fmt (py "draft")
                         (isoformat now) in
  let db := mk_database (templates (conn w)) (documents (conn w) ++ [doc])
                        (export_records (conn w)) in
  render template_name title variables fmt now w
  = (Ok doc, mk_world (env w) db db (files w)).
Proof.
  rewrite select_template_eq. intros [= Hfind] Hr.
  unfold render, bind. rewrite select_template_eq, Hfind, Hr. reflexivity.
Qed.

Lemma bind_int_ok (n : Z) (w : world) :
  int64 n -> bind_int n w = (Ok tt, w).
Proof.
  unfold int64, bind_int. intros [Hlo Hhi].
  apply Z.leb_le in Hlo. apply Z.ltb_lt in Hhi. by rewrite Hlo, Hhi.
Qed.

Lemma bind_int_overflow (n : Z) (w : world) :
  ~ int64 n -> bind_int n w = (Raise OverflowError, w).
Proof.
  unfold int64, bind_int. intros Hn.
  destruct (- 2 ^ 63 <=? n)%Z eqn:Hlo; [|done].
  destruct (n <? 2 ^ 63)%Z eqn:Hhi; [|done].
  apply Z.leb_le in Hlo. apply Z.ltb_lt in Hhi. tauto.
Qed.

Lemma int64_dec (n : Z) : int64 n \/ ~ int64 n.
Proof. unfold int64. lia. Qed.

Lemma export_overflow (doc_id : Z) (fmt : option str) (now_tag now : datetime)
      (w : world) :
  ~ int64 doc_id ->
  export_document doc_id fmt now_tag now w = (Raise OverflowError, w).
Proof.
  intros Hn. unfold export_document, bind.
  by rewrite (bind_int_overflow _ _ Hn).
Qed.

Lemma export_not_found (doc_id : Z) (fmt : option str) (now_tag now : datetime)
      (w : world) :
  int64 doc_id ->
  select_document doc_id w = (Ok None, w) ->
  export_document doc_id fmt now_tag now w
  = (Raise (KeyError (document_not_found_msg doc_id)), w).
Proof.
  intros Hn. rewrite select_document_eq. intros [= Hfind].
  unfold export_document, bind.
  rewrite (bind_int_ok _ _ Hn), select_document_eq, Hfind.
  reflexivity.
Qed.

Lemma export_refused (doc_id : Z) (fmt : option str) (now_tag now : datetime)
      (w : world) (row : Document.t) :
  int64 doc_id ->
  select_document doc_id w = (Ok (Some row), w) ->
  let out_path := export_path_of (env w) row fmt now_tag in
  fs_accepts (env w) out_path = false ->
  export_document doc_id fmt now_tag now w = (Raise (OSError out_path), w).
Proof.
  intros Hn. rewrite select_document_eq. intros [= Hfind] out_path Hno.
  unfold export_document, bind.
  rewrite (bind_int_ok _ _ Hn), select_document_eq, Hfind.
  unfold get_env, write_text. cbn beta iota.
  fold (export_path_of (env w) row fmt now_tag). fold out_path.
  by rewrite Hno.
Qed.

Lemma export_ok (doc_id : Z) (fmt : option str) (now_tag now : datetime)
      (w : world) (row : Document.t) :
  int64 doc_id ->
  select_document doc_id w = (Ok (Some row), w) ->
  let export_fmt := py_or fmt (Document.fmt row) in
  let out_path := export_path_of (env w) row fmt now_tag in
  let bytes := utf8_encode (wrap_body export_fmt (Document.title row)
                                      (Document.content row)) in
  let rec := ExportRecord.mk
               (next_rowid (map ExportRecord.id (export_records (conn w))))
               doc_id out_path export_fmt (Z.of_nat (length bytes))
               (isoformat now) in
  let db := mk_database
              (templates (conn w))
              (map (fun r =>
                      if bool_decide (Document.id r = doc_id)
                      then set_exported r else r) (documents (conn w)))
              (export_records (conn w) ++ [rec]) in
  fs_accepts (env w) out_path = true ->
  export_document doc_id fmt now_tag now w
  = (Ok rec, mk_world (env w) db db (<[out_path := bytes]> (files w))).
Proof.
  intros Hn. rewrite select_document_eq. intros [= Hfind].
  intros export_fmt out_path bytes rec db Hyes.
  unfold export_document, bind.
  rewrite (bind_int_ok _ _ Hn), select_document_eq, Hfind.
  unfold get_env, write_text, stat_size. cbn beta iota.
  fold (export_path_of (env w) row fmt now_tag). fold out_path.
  rewrite Hyes. cbn [files env]. rewrite lookup_insert_eq. reflexivity.
Qed.

(** ** Claims on substitution *)

(** C1. If some placeholder's trimmed name is not a key of the mapping,
    substitution raises the missing-variable [KeyError] that names such a
    placeholder and returns no text; [render] on an existing template with
    that content re-raises it as a [ValueError], leaves the state as it was
    (no document row), and that exception is of another kind than the
    [KeyError] raised for a template that is not found. *)
Theorem missing_variable_fails (content : str) (variables : dict) :
  (exists k, k ∈ _extract_vars content /\ dict_has variables k = false) ->
  exists k,
    k ∈ _extract_vars content /\ dict_has variables k = false
    /\ _render content variables = Raise (KeyError (missing_variable_msg k))
    /\ (forall w row template_name title fmt now,
          select_template template_name w = (Ok (Some row), w) ->
          Template.content row = content ->
          render template_name title variables fmt now w
          = (Raise (ValueError_from (KeyError (missing_variable_msg k))), w))
    /\ (forall w template_name title fmt now,
          select_template template_name w = (Ok None, w) ->
          exists e,
            render template_name title variables fmt now w = (Raise e, w)
            /\ is_KeyError e = true
            /\ is_KeyError (ValueError_from (KeyError (missing_variable_msg k)))
               = false).
Proof.
  intros (k0 & Hk0 & Hmiss0).
  apply extract_vars_elem_of in Hk0 as (g0 & Hg0 & ->).
  apply dict_has_false in Hmiss0.
  pose proof (render_outcome variables content) as Hout.
  destruct (_render content variables) as [out|e] eqn:Hr.
  - destruct (Hout g0 Hg0) as [v Hv]. congruence.
  - destruct Hout as (g & Hg & Hnone & ->).
    exists (strip g). split; [apply extract_vars_elem_of; eauto|].
    split; [by apply dict_has_false|]. split; [done|]. split.
    + intros w row template_name title fmt now Hsel <-.
      by eapply render_missing.
    + intros w template_name title fmt now Hsel.
      eexists. split; [by apply render_not_found|]. done.
Qed.

Lemma missing_variable_fails_witness :
  py "amount" ∈ _extract_vars greeting
  /\ dict_has alice_only (py "amount") = false
  /\ exists k, _render greeting alice_only
               = Raise (KeyError (missing_variable_msg k)).
Proof.
  assert (H1 : py "amount" ∈ _extract_vars greeting).
  { apply (bool_decide_unpack _). vm_compute. exact I. }
  assert (H2 : dict_has alice_only (py "amount") = false).
  { vm_compute. reflexivity. }
  split; [exact H1|]. split; [exact H2|].
  destruct (missing_variable_fails greeting alice_only
              (ex_intro _ (py "amount") (conj H1 H2)))
    as (k & _ & _ & Hr & _).
  exists k. exact Hr.
Defined.

(** C2, as the code has it.  When the mapping has a key for every
    placeholder name of the text, substitution returns a text.  The input
    is literal text interleaved with all the placeholders the pattern finds
    in it, and the output is the same literal text with every one of these
    placeholders replaced by the value of its trimmed name.  Each value is
    put in as it is and the scan goes on after it, so what a value brings
    in is never substituted again; when the values are plain (not empty,
    no brace) the pattern matches nowhere in the output.  [render] stores
    exactly this text as the content of the new document. *)
Theorem render_replaces_every_placeholder (content : str) (variables : dict) :
  (forall k, k ∈ _extract_vars content -> dict_has variables k = true) ->
  exists (pieces : list (str * str * str)) (tail out : str),
    content = flat_map (fun '(lit, g, _) => lit ++ placeholder_token g) pieces
              ++ tail
    /\ re_findall content = map (fun '(_, g, _) => g) pieces
    /\ Forall (fun '(_, g, v) => dict_get variables (strip g) = Some v) pieces
    /\ out = flat_map (fun '(lit, _, v) => lit ++ v) pieces ++ tail
    /\ _render content variables = Ok out
    /\ (plain_values variables content -> re_findall out = [])
    /\ (forall w row template_name title fmt now,
          select_template template_name w = (Ok (Some row), w) ->
          Template.content row = content ->
          exists doc w',
            render template_name title variables fmt now w = (Ok doc, w')
            /\ Document.content doc = out
            /\ select_document (Document.id doc) w' = (Ok (Some doc), w')
            /\ doc ∈ documents (committed w')).
Proof.
  intros Hcov.
  destruct (render_pieces variables content) as (pieces & tail & Hs & Hf & Hv & Hr).
  { intros g Hg. apply dict_has_get, Hcov, extract_vars_elem_of. eauto. }
  exists pieces, tail, (flat_map (fun '(lit, _, v) => lit ++ v) pieces ++ tail).
  do 5 (split; [done|]). split.
  { intros Hplain. destruct (render_plain variables content Hplain)
      as (out & Hout & Hno).
    rewrite Hr in Hout. injection Hout as <-. by apply no_match_findall. }
  intros w row template_name title fmt now Hsel <-.
  eexists _, _. split; [by eapply render_ok|]. split; [done|]. split.
  - rewrite select_document_eq. f_equal. f_equal.
    by apply (find_inserted_document (documents (conn w))).
  - fields. apply elem_of_app. right. apply list_elem_of_here.
Qed.

Lemma render_replaces_every_placeholder_witness :
  exists out, _render greeting alice_42 = Ok out /\ re_findall out = [].
Proof.
  destruct (render_replaces_every_placeholder greeting alice_42)
    as (pieces & tail & out & _ & _ & _ & _ & Hr & Hplain & _).
  - intros k Hk.
    assert (Hin : k ∈ [py "name"; py "amount"]) by exact Hk.
    rewrite !elem_of_cons in Hin.
    destruct Hin as [->|[->|Hnil]]; [reflexivity|reflexivity|].
    by apply elem_of_nil in Hnil.
  - exists out. split; [exact Hr|]. apply Hplain.
    intros g Hg.
    assert (Hin : g ∈ [py "name"; py "amount"]) by exact Hg.
    rewrite !elem_of_cons in Hin.
    destruct Hin as [->|[->|Hnil]]; [| |by apply elem_of_nil in Hnil].
    + exists (py "Alice"). split; [reflexivity|].
      split; [done|]. split; apply (bool_decide_unpack _); vm_compute; exact I.
    + exists (py "42"). split; [reflexivity|].
      split; [done|]. split; apply (bool_decide_unpack _); vm_compute; exact I.
Defined.

(** The concrete scenario: all variables given, and one missing. *)
Example greeting_rendered :
  _render greeting alice_42 = Ok (py "Hello Alice, you owe 42").
Proof. vm_compute. reflexivity. Qed.

Example greeting_missing_amount :
  _render greeting alice_only
  = Raise (KeyError (py "Missing template variable: 'amount'")).
Proof. vm_compute. reflexivity. Qed.

(** A value shaped like a placeholder stays as it is: one pass only. *)
Example value_is_not_substituted_again :
  _render (py "{{a}}") [(py "a", py "{{b}}"); (py "b", py "x")]
  = Ok (py "{{b}}").
Proof. vm_compute. reflexivity. Qed.

(** C2, as the claim has it, fails.  The text ["{{e}{{e}}}"] has one
    placeholder, [e], after a stretch at which the pattern does not match;
    the mapping gives [e] the empty string, which brings in no brace.
    Substitution returns ["{{e}}"]: the literal braces on both sides of
    the placeholder close up, and the returned text shows the placeholder
    [e] of the input. *)
Lemma rendered_text_shows_placeholder_of_input :
  let content := py "{{e}{{e}}}" in
  let variables := [(py "e", [])] in
  _extract_vars content = [py "e"]
  /\ (forall k, k ∈ _extract_vars content -> dict_has variables k = true)
  /\ (forall k v, dict_get variables k = Some v ->
        (LBRACE ∉ v) /\ (RBRACE ∉ v))
  /\ _render content variables = Ok (py "{{e}}")
  /\ re_findall (py "{{e}}") = [py "e"]
  /\ _extract_vars (py "{{e}}") = [py "e"].
Proof.
  intros content variables.
  assert (Hvars : _extract_vars content = [py "e"]) by (vm_compute; reflexivity).
  split; [exact Hvars|]. split; [|split; [|split; [|split]]].
  - intros k. rewrite Hvars. intros ->%list_elem_of_singleton. reflexivity.
  - intros k v. unfold variables. simpl. case_bool_decide; [|done].
    intros [= <-]. split; apply not_elem_of_nil.
  - vm_compute. reflexivity.
  - vm_compute. reflexivity.
  - vm_compute. reflexivity.
Qed.

(** ** Claims on the template upsert *)

(** C4. An upsert always returns, and afterwards the template stored under
    the name has the new content, the JSON list of the extractor's output
    on that content, the new category, and the update time [now].  If no
    template had the name, it is at version 1 with creation time [now]; if
    one had, its version is the old one plus 1 (its id and creation time
    are kept).  Templates under other names are as they were, so a later
    first upsert of another name starts at version 1. *)
Theorem upsert_versioning (name content category : str) (now : datetime)
        (w : world) :
  exists t w' stored,
    create_template name content category now w = (Ok t, w')
    /\ select_template name w' = (Ok (Some stored), w')
    /\ committed w' = conn w'
    /\ Template.name stored = name
    /\ Template.content stored = content
    /\ Template.variables stored = json_dumps_list (_extract_vars content)
    /\ Template.category stored = category
    /\ Template.updated_at stored = isoformat now
    /\ Template.version t = Template.version stored
    /\ match (select_template name w).1 with
       | Ok None =>
           Template.version stored = 1%Z
           /\ Template.created_at stored = isoformat now
       | Ok (Some old) =>
           Template.version stored = (Template.version old + 1)%Z
           /\ Template.id stored = Template.id old
           /\ Template.created_at stored = Template.created_at old
       | Raise _ => False
       end
    /\ (forall other, other <> name ->
          (select_template other w').1 = (select_template other w).1).
Proof.
  destruct (find (fun r => bool_decide (Template.name r = name))
                 (templates (conn w))) as [old|] eqn:Hfind.
  - pose proof (find_some _ _ Hfind) as [_ Hname].
    apply bool_decide_eq_true_1 in Hname.
    eexists _, _, _. split.
    { apply create_template_existing. by rewrite select_template_eq, Hfind. }
    rewrite !select_template_eq. cbn [conn committed templates fst].
    rewrite find_map_stable, Hfind; [|key_stable].
    cbn [fmap option_fmap option_map]. rewrite (bool_decide_eq_true_2 _ Hname).
    split; [done|]. fields. repeat (split; [done|]).
    intros other Hne. rewrite !select_template_eq.
    cbn [conn templates fst]. f_equal.
    rewrite find_map_stable; [|key_stable].
    destruct (find (fun r => bool_decide (Template.name r = other))
                   (templates (conn w))) as [r|] eqn:Hother; [|done].
    apply find_some in Hother as [_ Hr]. apply bool_decide_eq_true_1 in Hr.
    cbn [fmap option_fmap option_map].
    rewrite bool_decide_eq_false_2 by congruence. done.
  - eexists _, _, _. split.
    { apply create_template_new. by rewrite select_template_eq, Hfind. }
    rewrite !select_template_eq. cbn [conn committed templates fst].
    rewrite find_app, Hfind. cbn [find Template.name].
    rewrite bool_decide_eq_true_2 by done.
    split; [done|]. fields. repeat (split; [done|]).
    intros other Hne. rewrite !select_template_eq.
    cbn [conn templates fst]. f_equal. rewrite find_app.
    destruct (find (fun r => bool_decide (Template.name r = other))
                   (templates (conn w))) as [r|]; [done|].
    cbn [find Template.name]. by rewrite bool_decide_eq_false_2.
Qed.

(** Creating ["x"], upserting ["x"] again and creating ["y"]: ["x"] is at
    version 2 with the new content and ["y"] at version 1. *)
Example versioning_scenario :
  let w := run fresh_world
             [CreateTemplate (py "x") (py "a") (py "general") new_year_2024;
              CreateTemplate (py "x") (py "b {{v}}") (py "general") new_year_2025;
              CreateTemplate (py "y") (py "c") (py "general") new_year_2025] in
  map (fun t => (Template.name t, Template.version t, Template.content t))
      (templates (conn w))
  = [(py "x", 2%Z, py "b {{v}}"); (py "y", 1%Z, py "c")].
Proof. vm_compute. reflexivity. Qed.

(** C9, on the update branch: the returned template carries the time of
    the update as its creation time, while the stored row keeps the time of
    the first upsert.  Here ["x"] is created in 2024 and upserted in 2025. *)
Theorem upsert_returns_update_time_as_created_at :
  let w1 := (create_template (py "x") (py "a") (py "general")
                             new_year_2024 fresh_world).2 in
  let r := create_template (py "x") (py "b") (py "general") new_year_2025 w1 in
  exists t stored,
    r.1 = Ok t
    /\ (select_template (py "x") r.2).1 = Ok (Some stored)
    /\ Template.created_at t = py "2025-01-01T00:00:00"
    /\ Template.created_at stored = py "2024-01-01T00:00:00"
    /\ Template.created_at t <> Template.created_at stored.
Proof.
  eexists _, _. split; [vm_compute; reflexivity|].
  split; [vm_compute; reflexivity|].
  split; [vm_compute; reflexivity|].
  split; [vm_compute; reflexivity|]. vm_compute. discriminate.
Qed.

(** What the upsert returns against what it stores: on the create branch
    every field agrees; on the update branch every field but [created_at]
    agrees, and [created_at] agrees only if the old row was created at
    [now]. *)
Lemma upsert_returned_against_stored (name content category : str)
      (now : datetime) (w : world) :
  exists t w' stored,
    create_template name content category now w = (Ok t, w')
    /\ select_template name w' = (Ok (Some stored), w')
    /\ Template.id t = Template.id stored
    /\ Template.name t = Template.name stored
    /\ Template.content t = Template.content stored
    /\ Template.variables t = Template.variables stored
    /\ Template.category t = Template.category stored
    /\ Template.version t = Template.version stored
    /\ Template.updated_at t = Template.updated_at stored
    /\ Template.created_at t = isoformat now
    /\ match (select_template name w).1 with
       | Ok (Some old) => Template.created_at stored = Template.created_at old
       | _ => t = stored
       end.
Proof.
  destruct (find (fun r => bool_decide (Template.name r = name))
                 (templates (conn w))) as [old|] eqn:Hfind.
  - pose proof (find_some _ _ Hfind) as [_ Hname].
    apply bool_decide_eq_true_1 in Hname.
    eexists _, _, _. split.
    { apply create_template_existing. by rewrite select_template_eq, Hfind. }
    rewrite !select_template_eq. cbn [conn committed templates fst].
    rewrite find_map_stable, Hfind; [|key_stable].
    cbn [fmap option_fmap option_map]. rewrite (bool_decide_eq_true_2 _ Hname).
    split; [done|]. cbn. by repeat (split; [done|]).
  - eexists _, _, _. split.
    { apply create_template_new. by rewrite select_template_eq, Hfind. }
    rewrite !select_template_eq. cbn [conn committed templates fst].
    rewrite find_app, Hfind. cbn [find Template.name].
    rewrite bool_decide_eq_true_2 by done.
    split; [done|]. fields. by repeat (split; [done|]).
Qed.

(** ** Histories *)

Lemma run_snoc (w : world) (cs : list call) (c : call) :
  run w (cs ++ [c]) = step (run w cs) c.
Proof. unfold run. by rewrite fold_left_app. Qed.

Lemma exported_during_nil (w : world) (d : Z) : ~ exported_during w [] d.
Proof. intros (cs1 & f & t1 & t2 & cs2 & Heq & _). by destruct cs1. Qed.

Lemma exported_during_snoc (w : world) (cs : list call) (c : call) (d : Z) :
  exported_during w (cs ++ [c]) d
  <-> exported_during w cs d
      \/ ((exists f t1 t2, c = ExportDocument d f t1 t2)
          /\ call_succeeds (run w cs) c = true).
Proof.
  split.
  - intros (cs1 & f & t1 & t2 & cs2 & Heq & Hok).
    destruct cs2 as [|x cs2 _] using rev_ind.
    + apply app_inj_tail in Heq as [-> ->]. right. eauto.
    + rewrite app_comm_cons, app_assoc in Heq.
      apply app_inj_tail in Heq as [-> ->].
      left. exists cs1, f, t1, t2, cs2. done.
  - intros [(cs1 & f & t1 & t2 & cs2 & -> & Hok)|[(f & t1 & t2 & ->) Hok]].
    + exists cs1, f, t1, t2, (cs2 ++ [c]). by rewrite <- app_assoc.
    + exists cs, f, t1, t2, []. done.
Qed.

(** What a call does to the rows and the files. *)
Lemma create_template_frame (name content category : str) (now : datetime)
      (w : world) :
  let w' := (create_template name content category now w).2 in
  env w' = env w /\ documents (conn w') = documents (conn w)
  /\ export_records (conn w') = export_records (conn w)
  /\ files w' = files w.
Proof.
  destruct (find (fun r => bool_decide (Template.name r = name))
                 (templates (conn w))) as [old|] eqn:Hfind.
  - rewrite (create_template_existing _ _ _ _ w old)
      by (by rewrite select_template_eq, Hfind). done.
  - rewrite (create_template_new _ _ _ _ w)
      by (by rewrite select_template_eq, Hfind). done.
Qed.

Lemma render_cases (template_name title : str) (variables : dict) (fmt : str)
      (now : datetime) (w : world) :
  (exists e, render template_name title variables fmt now w = (Raise e, w))
  \/ (exists doc,
        render template_name title variables fmt now w
        = (Ok doc,
           let db := mk_database (templates (conn w))
                                 (documents (conn w) ++ [doc])
                                 (export_records (conn w)) in
           mk_world (env w) db db (files w))
        /\ Document.id doc = next_rowid (map Document.id (documents (conn w)))
        /\ Document.status doc = py "draft").
Proof.
  destruct (find (fun r => bool_decide (Template.name r = template_name))
                 (templates (conn w))) as [row|] eqn:Hfind.
  - destruct (_render (Template.content row) variables) as [out|e] eqn:Hr.
    + right. eexists. split.
      { apply (render_ok _ _ _ _ _ w row out); [|done].
        by rewrite select_template_eq, Hfind. }
      done.
    + left. unfold render, bind. rewrite select_template_eq, Hfind, Hr.
      destruct (is_KeyError e); eauto.
  - left. eexists. apply render_not_found.
    by rewrite select_template_eq, Hfind.
Qed.

(** Every way an export ends. *)
Lemma export_outcome (doc_id : Z) (fmt : option str) (now_tag now : datetime)
      (w : world) :
  (~ int64 doc_id
   /\ export_document doc_id fmt now_tag now w = (Raise OverflowError, w))
  \/ (int64 doc_id
      /\ (doc_id ∉ map Document.id (documents (conn w)))
      /\ export_document doc_id fmt now_tag now w
         = (Raise (KeyError (document_not_found_msg doc_id)), w))
  \/ (exists row,
        int64 doc_id
        /\ select_document doc_id w = (Ok (Some row), w)
        /\ Document.id row = doc_id /\ row ∈ documents (conn w)
        /\ ((fs_accepts (env w) (export_path_of (env w) row fmt now_tag)
             = false
             /\ export_document doc_id fmt now_tag now w
                = (Raise (OSError (export_path_of (env w) row fmt now_tag)),
                   w))
            \/ (fs_accepts (env w) (export_path_of (env w) row fmt now_tag)
                = true
                /\ exists rec w',
                     export_document doc_id fmt now_tag now w
                     = (Ok rec, w')))).
Proof.
  destruct (int64_dec doc_id) as [Hn|Hn];
    [|left; split; [done|by apply export_overflow]].
  right.
  destruct (find (fun r => bool_decide (Document.id r = doc_id))
                 (documents (conn w))) as [row|] eqn:Hfind.
  - right. pose proof (find_some _ _ Hfind) as [Hin Hid].
    apply bool_decide_eq_true_1 in Hid. apply list_elem_of_In in Hin.
    assert (Hsel : select_document doc_id w = (Ok (Some row), w))
      by (by rewrite select_document_eq, Hfind).
    exists row. do 4 (split; [done|]).
    destruct (fs_accepts (env w) (export_path_of (env w) row fmt now_tag))
      eqn:Hfs.
    + right. split; [done|]. eexists _, _. by apply export_ok.
    + left. split; [done|]. by apply export_refused.
  - left. split; [done|]. split.
    + rewrite list_elem_of_fmap. intros (r & -> & Hin).
      rewrite find_none_iff in Hfind. specialize (Hfind r Hin).
      by rewrite bool_decide_eq_true_2 in Hfind.
    + apply export_not_found; [done|]. by rewrite select_document_eq, Hfind.
Qed.

Lemma export_cases (doc_id : Z) (fmt : option str) (now_tag now : datetime)
      (w : world) :
  (exists e, export_document doc_id fmt now_tag now w = (Raise e, w))
  \/ (exists row rec w',
        select_document doc_id w = (Ok (Some row), w)
        /\ Document.id row = doc_id /\ row ∈ documents (conn w)
        /\ export_document doc_id fmt now_tag now w = (Ok rec, w')).
Proof.
  destruct (export_outcome doc_id fmt now_tag now w)
    as [[_ Hex]|[(_ & _ & Hex)
                |(row & _ & Hsel & Hid & Hin
                  & [[_ Hex]|(_ & rec & w' & Hex)])]]; eauto 10.
Qed.

(** Everything a successful export does. *)
Lemma export_effect (doc_id : Z) (fmt : option str) (now_tag now : datetime)
      (w : world) (row : Document.t) (rec : ExportRecord.t) (w' : world) :
  select_document doc_id w = (Ok (Some row), w) ->
  export_document doc_id fmt now_tag now w = (Ok rec, w') ->
  env w' = env w /\ committed w' = conn w'
  /\ templates (conn w') = templates (conn w)
  /\ documents (conn w')
     = map (fun r => if bool_decide (Document.id r = doc_id)
                     then set_exported r else r) (documents (conn w))
  /\ export_records (conn w') = export_records (conn w) ++ [rec]
  /\ files w'
     = <[ExportRecord.export_path rec :=
           utf8_encode (wrap_body (ExportRecord.export_format rec)
                                  (Document.title row) (Document.content row))]>
         (files w)
  /\ ExportRecord.id rec
     = next_rowid (map ExportRecord.id (export_records (conn w)))
  /\ ExportRecord.document_id rec = doc_id
  /\ ExportRecord.export_format rec = py_or fmt (Document.fmt row)
  /\ ExportRecord.export_path rec
     = path_join (DOCS_DIR (env w))
                 (safe_title_of (env w) (Document.title row) ++ py "_"
                  ++ strftime_tag now_tag ++ py "."
                  ++ ExportRecord.export_format rec)
  /\ ExportRecord.exported_at rec = isoformat now
  /\ int64 doc_id
  /\ fs_accepts (env w) (ExportRecord.export_path rec) = true.
Proof.
  intros Hsel Hex.
  destruct (int64_dec doc_id) as [Hn|Hn];
    [|by rewrite (export_overflow _ _ _ _ _ Hn) in Hex].
  destruct (fs_accepts (env w) (export_path_of (env w) row fmt now_tag))
    eqn:Hfs;
    [|by rewrite (export_refused _ _ _ _ _ _ Hn Hsel Hfs) in Hex].
  pose proof (export_ok _ fmt now_tag now _ _ Hn Hsel Hfs) as Hok.
  cbv zeta in Hok. rewrite Hex in Hok. injection Hok as -> ->.
  by fields.
Qed.

(** An export of a document that is there, at a path that the file system
    opens, returns. *)
Lemma export_accepted (doc_id : Z) (fmt : option str) (now_tag now : datetime)
      (w : world) (row : Document.t) :
  int64 doc_id ->
  select_document doc_id w = (Ok (Some row), w) ->
  fs_accepts (env w) (export_path_of (env w) row fmt now_tag) = true ->
  exists rec w', export_document doc_id fmt now_tag now w = (Ok rec, w').
Proof. intros Hn Hsel Hfs. eexists _, _. by apply export_ok. Qed.

(** An export that returns has found its document. *)
Lemma export_returns (doc_id : Z) (fmt : option str) (now_tag now : datetime)
      (w : world) (rec : ExportRecord.t) (w' : world) :
  export_document doc_id fmt now_tag now w = (Ok rec, w') ->
  exists row,
    select_document doc_id w = (Ok (Some row), w)
    /\ Document.id row = doc_id /\ row ∈ documents (conn w).
Proof.
  intros Hex.
  destruct (export_cases doc_id fmt now_tag now w)
    as [[e He]|(row & rec0 & w0 & Hsel & Hid & Hin & _)]; [congruence|].
  eauto.
Qed.

Lemma update_exported_ids (doc_id : Z) (docs : list Document.t) :
  map Document.id
      (map (fun r => if bool_decide (Document.id r = doc_id)
                     then set_exported r else r) docs)
  = map Document.id docs.
Proof.
  induction docs as [|r docs IH]; simpl; [done|].
  rewrite IH. by case_bool_decide.
Qed.

Lemma step_env (w : world) (c : call) : env (step w c) = env w.
Proof.
  destruct c as [n c g t|n t v f d|i f t1 t2]; simpl.
  - apply create_template_frame.
  - destruct (render_cases n t v f d w) as [[e ->]|(doc & -> & _)]; done.
  - destruct (export_cases i f t1 t2 w)
      as [[e ->]|(row & rec & w' & Hsel & _ & _ & Hex)]; [done|].
    destruct (export_effect i f t1 t2 w row rec w' Hsel Hex) as (He & _).
    rewrite Hex. done.
Qed.

Lemma run_env (w : world) (cs : list call) : env (run w cs) = env w.
Proof.
  induction cs as [|c cs IH] using rev_ind; [done|].
  by rewrite run_snoc, step_env.
Qed.

Lemma draft_not_exported : py "draft" <> py "exported".
Proof. discriminate. Qed.



(** The life cycle along a history that starts with no rows: a document
    is a draft until an export of it succeeds, and exported from then on;
    and a successful export is always of a document that is there. *)
Lemma lifecycle_invariant (e : process_env) (fs : gmap str (list N))
      (cs : list call) :
  let w := run (init_world e fs) cs in
  (forall doc, doc ∈ documents (conn w) ->
     (Document.status doc = py "draft"
      /\ ~ exported_during (init_world e fs) cs (Document.id doc))
     \/ (Document.status doc = py "exported"
         /\ exported_during (init_world e fs) cs (Document.id doc)))
  /\ (forall d, exported_during (init_world e fs) cs d ->
        d ∈ map Document.id (documents (conn w))).
Proof.
  induction cs as [|c cs IH] using rev_ind.
  - split.
    + intros doc Hin. by apply elem_of_nil in Hin.
    + intros d Hd. by apply exported_during_nil in Hd.
  - cbv zeta in IH |- *. rewrite run_snoc.
    set (w0 := init_world e fs) in *. set (w := run w0 cs) in *.
    destruct IH as [IHdocs IHexp].
    destruct c as [n c g t|n t v f d|i f t1 t2]; cbn [step].
    + (* create_template *)
      destruct (create_template_frame n c g t w) as (_ & -> & _).
      assert (Hsame : forall d, exported_during w0 (cs ++ [CreateTemplate n c g t]) d
                                <-> exported_during w0 cs d).
      { intros d. rewrite exported_during_snoc. split; [|tauto].
        intros [?|[(? & ? & ? & [=]) _]]. done. }
      split.
      * intros doc Hin. rewrite Hsame. by apply IHdocs.
      * intros d Hd. apply IHexp. by apply Hsame.
    + (* render *)
      assert (Hsame : forall i, exported_during w0 (cs ++ [Render n t v f d]) i
                                <-> exported_during w0 cs i).
      { intros i. rewrite exported_during_snoc. split; [|tauto].
        intros [?|[(? & ? & ? & [=]) _]]. done. }
      destruct (render_cases n t v f d w) as [[e' ->]|(doc & -> & Hid & Hst)].
      * split.
        -- intros doc Hin. rewrite Hsame. by apply IHdocs.
        -- intros i Hi. apply IHexp. by apply Hsame.
      * fields. split.
        -- intros doc' [Hin| ->%list_elem_of_singleton]%elem_of_app.
           ++ rewrite Hsame. by apply IHdocs.
           ++ left. split; [done|]. rewrite Hsame. intros Hexp.
              apply IHexp, next_rowid_fresh in Hexp. lia.
        -- intros i Hi. rewrite fmap_app, elem_of_app. left.
           apply IHexp. by apply Hsame.
    + (* export_document *)
      destruct (export_cases i f t1 t2 w)
        as [[e' Hex]|(row & rec & w' & Hsel & Hid & Hin & Hex)].
      * assert (Hsame : forall d,
                   exported_during w0 (cs ++ [ExportDocument i f t1 t2]) d
                   <-> exported_during w0 cs d).
        { intros d. rewrite exported_during_snoc. split; [|tauto].
          intros [?|[_ Hok]]; [done|].
          fold w in Hok. cbn [call_succeeds] in Hok. by rewrite Hex in Hok. }
        rewrite Hex. split.
        -- intros doc Hdoc. rewrite Hsame. by apply IHdocs.
        -- intros d Hd. apply IHexp. by apply Hsame.
      * destruct (export_effect i f t1 t2 w row rec w' Hsel Hex)
          as (_ & _ & _ & Hdocs & _).
        rewrite Hex. cbn [snd]. rewrite Hdocs.
        assert (Hnow : exported_during w0 (cs ++ [ExportDocument i f t1 t2]) i).
        { apply exported_during_snoc. right. split; [eauto|].
          fold w. cbn [call_succeeds]. by rewrite Hex. }
        assert (Hother : forall d, d <> i ->
                   exported_during w0 (cs ++ [ExportDocument i f t1 t2]) d
                   <-> exported_during w0 cs d).
        { intros d Hne. rewrite exported_during_snoc. split; [|tauto].
          intros [?|[(? & ? & ? & [= -> _ _ _]) _]]; done. }
        split.
        -- intros doc (r & -> & Hr)%list_elem_of_fmap.
           case_bool_decide as Hri.
           ++ right. split; [done|]. cbn [set_exported Document.id].
              by rewrite Hri.
           ++ rewrite (Hother _ Hri). by apply IHdocs.
        -- intros d Hd. rewrite update_exported_ids.
           destruct (decide (d = i)) as [->|Hne].
           ++ rewrite <- Hid. rewrite list_elem_of_fmap. eauto.
           ++ apply IHexp. by apply Hother.
Qed.

(** ** Claims on the document life cycle *)





(** ** Claims on export *)

(** C6. The file that an export has written when it returns holds the
    UTF-8 bytes of the body for the effective format: the content as it is
    for [txt]; for [md] a level-1 heading with the title, an empty line,
    the content and a newline; for [html] a document with the title in
    [<title>] and in [<h1>] and the content, not escaped, inside [<pre>]. *)
Theorem export_wraps_body (doc_id : Z) (fmt : option str)
        (now_tag now : datetime) (w : world) (row : Document.t)
        (rec : ExportRecord.t) (w' : world) :
  select_document doc_id w = (Ok (Some row), w) ->
  export_document doc_id fmt now_tag now w = (Ok rec, w') ->
  exists body,
    ExportRecord.export_format rec = py_or fmt (Document.fmt row)
    /\ files w' !! ExportRecord.export_path rec = Some (utf8_encode body)
    /\ (ExportRecord.export_format rec = py "txt" ->
        body = Document.content row)
    /\ (ExportRecord.export_format rec = py "md" ->
        body = py "# " ++ Document.title row ++ NL ++ NL
               ++ Document.content row ++ NL)
    /\ (ExportRecord.export_format rec = py "html" ->
        body = py "<!DOCTYPE html><html><head><title>" ++ Document.title row
               ++ py "</title></head><body><h1>" ++ Document.title row
               ++ py "</h1><pre>" ++ Document.content row
               ++ py "</pre></body></html>").
Proof.
  intros Hsel Hex.
  destruct (export_effect doc_id fmt now_tag now w row rec w' Hsel Hex)
    as (_ & _ & _ & _ & _ & Hfiles & _ & _ & Hfmt & _).
  exists (wrap_body (ExportRecord.export_format rec)
                    (Document.title row) (Document.content row)).
  split; [done|].
  split; [by rewrite Hfiles, lookup_insert_eq|].
  unfold wrap_body. split; [|split]; intros ->.
  - reflexivity.
  - reflexivity.
  - rewrite bool_decide_eq_true_2 by done.
    change (py "<!DOCTYPE html><html><head><title>")
      with (py "<!DOCTYPE html><html><head>" ++ py "<title>").
    change (py "</title></head><body><h1>")
      with (py "</title></head>" ++ py "<body><h1>").
    change (py "</h1><pre>") with (py "</h1>" ++ py "<pre>").
    by rewrite <- !app_assoc.
Qed.

Lemma export_wraps_body_witness :
  let w := run fresh_world two_invoices in
  exists rec w',
    export_document 1 (Some (py "md")) new_year_2025 new_year_2025 w
    = (Ok rec, w')
    /\ files w' !! ExportRecord.export_path rec
       = Some (utf8_encode (py "# Invoice #1" ++ NL ++ NL
                            ++ py "Total: 10" ++ NL)).
Proof.
  intros w.
  assert (Hsel : select_document 1 w
                 = (Ok (Some (Document.mk 1 1 (py "invoice") (py "Invoice #1")
                                (py "Total: 10")
                                (json_dumps_dict [(py "n", py "10")])
                                (py "txt") (py "exported")
                                (isoformat new_year_2024))), w)).
  { vm_compute. reflexivity. }
  destruct (export_accepted 1 (Some (py "md")) new_year_2025 new_year_2025
                            w _ ltac:(unfold int64; lia) Hsel)
    as (rec & w' & Hex); [vm_compute; reflexivity|].
  destruct (export_wraps_body 1 (Some (py "md")) new_year_2025 new_year_2025
                              w _ rec w' Hsel Hex)
    as (body & Hfmt & Hfile & _ & Hmd & _).
  exists rec, w'. split; [exact Hex|].
  rewrite Hfile, (Hmd Hfmt). reflexivity.
Defined.




(** ** Export paths *)

Lemma first_dot_unique (a a' b b' : str) :
  46 ∉ a -> 46 ∉ a' -> a ++ 46 :: b = a' ++ 46 :: b' -> a = a'.
Proof.
  revert a'. induction a as [|x a IH]; intros [|x' a'] Ha Ha' Heq;
    simpl in Heq.
  - done.
  - injection Heq as <- _. exfalso. apply Ha', list_elem_of_here.
  - injection Heq as -> _. exfalso. apply Ha, list_elem_of_here.
  - injection Heq as -> Heq. f_equal.
    rewrite not_elem_of_cons in Ha, Ha'. apply (IH a'); tauto.
Qed.

Lemma safe_title_no_dot (e : process_env) (title : str) :
  46 ∉ safe_title_of e title.
Proof.
  unfold safe_title_of. induction title as [|c title IH]; simpl.
  - apply not_elem_of_nil.
  - rewrite not_elem_of_cons. split; [|done].
    destruct (N.eq_dec c 46) as [->|Hc]; [done|].
    destruct (is_word e c || (c =? 45)); [congruence|done].
Qed.

Lemma strftime_tag_length (t : datetime) : length (strftime_tag t) = 15%nat.
Proof. reflexivity. Qed.

Lemma digit_not_dot (d : N) : digit d <> 46.
Proof. unfold digit. generalize (d mod 10). intros n. lia. Qed.

Lemma strftime_tag_no_dot (t : datetime) : 46 ∉ strftime_tag t.
Proof.
  unfold strftime_tag, pad4, pad2. simpl.
  repeat (rewrite not_elem_of_cons; split;
          [first [apply not_eq_sym, digit_not_dot | done]|]).
  apply not_elem_of_nil.
Qed.

Lemma digit_eq (a b : N) : digit a = digit b -> a mod 10 = b mod 10.
Proof. unfold digit. apply N.add_cancel_l. Qed.

Lemma decimal2 (n : N) : n < 100 -> n = 10 * ((n / 10) mod 10) + n mod 10.
Proof.
  intros Hn. assert (n / 10 < 10) by (apply N.Div0.div_lt_upper_bound; lia).
  rewrite (N.mod_small (n / 10)) by done. by apply N.div_mod.
Qed.

Lemma decimal4 (n : N) :
  n < 10000 ->
  n = 1000 * ((n / 1000) mod 10) + 100 * ((n / 100) mod 10)
      + 10 * ((n / 10) mod 10) + n mod 10.
Proof.
  intros Hn.
  assert (n / 1000 < 10) by (apply N.Div0.div_lt_upper_bound; lia).
  rewrite (N.mod_small (n / 1000)) by done.
  pose proof (N.div_mod n 10 ltac:(done)) as H0.
  pose proof (N.div_mod (n / 10) 10 ltac:(done)) as H1.
  pose proof (N.div_mod (n / 100) 10 ltac:(done)) as H2.
  rewrite N.Div0.div_div in H1, H2.
  change (10 * 10) with 100 in H1. change (100 * 10) with 1000 in H2.
  set (q1 := n / 10) in *. set (q2 := n / 100) in *. set (q3 := n / 1000) in *.
  set (d0 := n mod 10) in *. set (d1 := q1 mod 10) in *.
  set (d2 := q2 mod 10) in *. clearbody q1 q2 q3 d0 d1 d2. lia.
Qed.

Lemma pad2_inj (n m : N) : n < 100 -> m < 100 -> pad2 n = pad2 m -> n = m.
Proof.
  intros Hn Hm [= H1%digit_eq H2%digit_eq].
  rewrite (decimal2 n Hn), (decimal2 m Hm). congruence.
Qed.

Lemma pad4_inj (n m : N) : n < 10000 -> m < 10000 -> pad4 n = pad4 m -> n = m.
Proof.
  intros Hn Hm [= H1%digit_eq H2%digit_eq H3%digit_eq H4%digit_eq].
  rewrite (decimal4 n Hn), (decimal4 m Hm). congruence.
Qed.

(** Two readings of the clock have the same tag only if they fall in the
    same second. *)
Lemma strftime_tag_same_second (t u : datetime) :
  valid_datetime t -> valid_datetime u ->
  strftime_tag t = strftime_tag u ->
  year t = year u /\ month t = month u /\ day t = day u
  /\ hour t = hour u /\ minute t = minute u /\ second t = second u.
Proof.
  intros (Hy & Hmo & Hd & Hh & Hmi & Hs & _)
         (Hy' & Hmo' & Hd' & Hh' & Hmi' & Hs' & _).
  unfold strftime_tag. intros Heq.
  apply app_inj_1 in Heq as [Hyear Heq]; [|done].
  apply app_inj_1 in Heq as [Hmonth Heq]; [|done].
  apply app_inj_1 in Heq as [Hday Heq]; [|done].
  apply app_inj_1 in Heq as [_ Heq]; [|done].
  apply app_inj_1 in Heq as [Hhour Heq]; [|done].
  apply app_inj_1 in Heq as [Hminute Hsecond]; [|done].
  repeat split; first [apply pad4_inj; [lia|lia|done]
                      | apply pad2_inj; [lia|lia|done]].
Qed.

Lemma safe_title_chars (e : process_env) (title : str) (c : N) :
  c ∈ safe_title_of e title -> is_word e c = true \/ c = 45.
Proof.
  unfold safe_title_of. intros (x & -> & _)%list_elem_of_fmap.
  destruct (is_word e x) eqn:Hw; simpl; [by left|].
  destruct (N.eqb_spec x 45); [by right|by left].
Qed.

Lemma safe_title_no_slash (e : process_env) (title : str) :
  47 ∉ safe_title_of e title.
Proof. intros [H|H]%safe_title_chars; done. Qed.

Lemma digit_not_slash (d : N) : digit d <> 47.
Proof. unfold digit. generalize (d mod 10). intros n. lia. Qed.

Lemma strftime_tag_no_slash (t : datetime) : 47 ∉ strftime_tag t.
Proof.
  unfold strftime_tag, pad4, pad2. simpl.
  repeat (rewrite not_elem_of_cons; split;
          [first [apply not_eq_sym, digit_not_slash | done]|]).
  apply not_elem_of_nil.
Qed.

(** A name without a slash is one component. *)
Lemma split_slash_plain (name : str) :
  47 ∉ name -> split_slash name = [name].
Proof.
  induction name as [|c name IH]; [done|].
  rewrite not_elem_of_cons. intros [Hc Hname]. cbn [split_slash].
  destruct (N.eqb_spec c 47) as [->|_]; [done|]. by rewrite IH.
Qed.

(** For a file name without a slash the join is the directory, the
    separator and the name. *)
Lemma path_join_plain (dir name : str) :
  47 ∉ name -> name <> [] -> name <> py "." ->
  path_join dir name
  = (if bool_decide (dir = py "/") then dir else dir ++ py "/") ++ name.
Proof.
  intros Hslash Hne Hdot. unfold path_join, path_parts.
  rewrite (split_slash_plain _ Hslash). cbn [List.filter].
  rewrite !bool_decide_eq_false_2 by done. cbn [orb negb fold_left].
  case_bool_decide; [done|]. by rewrite <- app_assoc.
Qed.

Lemma export_name_plain (st tag f : str) :
  47 ∉ st -> 47 ∉ tag -> 47 ∉ f ->
  (47 ∉ st ++ py "_" ++ tag ++ py "." ++ f)
  /\ st ++ py "_" ++ tag ++ py "." ++ f <> []
  /\ st ++ py "_" ++ tag ++ py "." ++ f <> py ".".
Proof.
  intros Hst Htag Hf. change (py "_") with [95]. change (py ".") with [46].
  split; [|split].
  - rewrite !not_elem_of_app, !list_elem_of_singleton. done.
  - intros Heq. apply (f_equal length) in Heq.
    rewrite !length_app in Heq. simpl in Heq. lia.
  - intros Heq.
    assert (Hin : 95 ∈ st ++ [95] ++ tag ++ [46] ++ f).
    { rewrite !elem_of_app, !list_elem_of_singleton. tauto. }
    rewrite Heq in Hin. by apply list_elem_of_singleton in Hin.
Qed.

(** The slug, the tag and the format can be read off a file name. *)
Lemma export_name_inj (st tag f st' tag' f' : str) :
  46 ∉ st -> 46 ∉ st' -> 46 ∉ tag -> 46 ∉ tag' ->
  length tag = length tag' ->
  st ++ py "_" ++ tag ++ py "." ++ f = st' ++ py "_" ++ tag' ++ py "." ++ f' ->
  st = st' /\ tag = tag' /\ f = f'.
Proof.
  intros Hst Hst' Htag Htag' Hlen Heq.
  change (py "_") with [95] in Heq. change (py ".") with [46] in Heq.
  assert (Hpre : (st ++ [95]) ++ tag = (st' ++ [95]) ++ tag').
  { apply (first_dot_unique _ _ f f').
    - rewrite !elem_of_app, list_elem_of_singleton. intros [[?|?]|?]; done.
    - rewrite !elem_of_app, list_elem_of_singleton. intros [[?|?]|?]; done.
    - by rewrite <- !app_assoc. }
  assert (Hf : f = f').
  { assert (Heq' : ((st ++ [95]) ++ tag) ++ [46] ++ f
                   = ((st' ++ [95]) ++ tag') ++ [46] ++ f')
      by (by rewrite <- !app_assoc).
    rewrite Hpre in Heq'. apply app_inv_head in Heq'. by injection Heq'. }
  apply app_inj_2 in Hpre as [Hs Ht]; [|done].
  apply app_inj_2 in Hs as [Hs _]; done.
Qed.

(** And so off an export path, when the formats have no slash. *)
Lemma export_path_inj (dir st tag f st' tag' f' : str) :
  47 ∉ st -> 47 ∉ st' -> 47 ∉ tag -> 47 ∉ tag' -> 47 ∉ f -> 47 ∉ f' ->
  46 ∉ st -> 46 ∉ st' -> 46 ∉ tag -> 46 ∉ tag' ->
  length tag = length tag' ->
  path_join dir (st ++ py "_" ++ tag ++ py "." ++ f)
  = path_join dir (st' ++ py "_" ++ tag' ++ py "." ++ f') ->
  st = st' /\ tag = tag' /\ f = f'.
Proof.
  intros Hs Hs' Ht Ht' Hf Hf' Hst Hst' Htag Htag' Hlen Heq.
  destruct (export_name_plain st tag f) as (H1 & H2 & H3); [done..|].
  destruct (export_name_plain st' tag' f') as (H1' & H2' & H3'); [done..|].
  rewrite !path_join_plain in Heq by done.
  apply app_inv_head in Heq. by apply export_name_inj.
Qed.

Lemma export_tags_elem (cs : list call) (tag : str) :
  tag ∈ export_tags cs -> exists t, tag = strftime_tag t.
Proof.
  unfold export_tags. intros Hin. apply list_elem_of_In, in_flat_map in Hin
    as (c & _ & Hc).
  destruct c; try done. destruct Hc as [<-|[]]. eauto.
Qed.

Lemma export_tags_snoc (cs : list call) (c : call) :
  export_tags (cs ++ [c])
  = export_tags cs ++ match c with
                      | ExportDocument _ _ now_tag _ => [strftime_tag now_tag]
                      | _ => []
                      end.
Proof. unfold export_tags. by rewrite flat_map_app; simpl; rewrite app_nil_r. Qed.

(** Every record of a history from an empty store belongs to a stored
    document and carries the path made of the slug of that document's
    title, the tag of one of the history's exports, and its own format. *)
Lemma export_paths_invariant (e : process_env) (fs : gmap str (list N))
      (cs : list call) (r : ExportRecord.t) :
  r ∈ export_records (conn (run (init_world e fs) cs)) ->
  exists doc tag,
    doc ∈ documents (conn (run (init_world e fs) cs))
    /\ Document.id doc = ExportRecord.document_id r
    /\ tag ∈ export_tags cs
    /\ ExportRecord.export_path r
       = path_join (DOCS_DIR e)
                   (safe_title_of e (Document.title doc) ++ py "_" ++ tag
                    ++ py "." ++ ExportRecord.export_format r).
Proof.
  revert r. induction cs as [|c cs IH] using rev_ind; intros r.
  - intros Hin. by apply elem_of_nil in Hin.
  - rewrite run_snoc, export_tags_snoc.
    pose proof (run_env (init_world e fs) cs) as Henv.
    cbn [init_world env] in Henv.
    set (w := run (init_world e fs) cs) in *.
    destruct c as [n c g t|n t v f d|i f t1 t2]; cbn [step].
    + destruct (create_template_frame n c g t w) as (_ & -> & -> & _).
      rewrite app_nil_r. apply IH.
    + rewrite app_nil_r.
      destruct (render_cases n t v f d w) as [[e' ->]|(doc & -> & _)];
        [apply IH|].
      fields. intros Hin.
      destruct (IH r Hin) as (doc0 & tag & Hdoc & Hid & Htag & Hp).
      exists doc0, tag. split; [|done]. apply elem_of_app. by left.
    + destruct (export_cases i f t1 t2 w)
        as [[e' ->]|(row & rec & w' & Hsel & Hrid & Hrin & Hex)].
      { cbn [snd]. intros Hin.
        destruct (IH r Hin) as (doc0 & tag & Hdoc & Hid & Htag & Hp).
        exists doc0, tag. do 2 (split; [done|]). split; [|done].
        apply elem_of_app. by left. }
      destruct (export_effect i f t1 t2 w row rec w' Hsel Hex)
        as (_ & _ & _ & Hdocs & Hrecs & _ & _ & Hdid & _ & Hpath & _).
      rewrite Hex. cbn [snd]. rewrite Hrecs, Hdocs.
      assert (Hkeep : forall doc0, doc0 ∈ documents (conn w) ->
                exists doc1,
                  doc1 ∈ map (fun r0 => if bool_decide (Document.id r0 = i)
                                        then set_exported r0 else r0)
                             (documents (conn w))
                  /\ Document.id doc1 = Document.id doc0
                  /\ Document.title doc1 = Document.title doc0).
      { intros doc0 Hdoc0. eexists. split.
        - apply list_elem_of_fmap. exists doc0. split; [reflexivity|done].
        - by case_bool_decide. }
      intros [Hin| ->%list_elem_of_singleton]%elem_of_app.
      * destruct (IH r Hin) as (doc0 & tag & Hdoc & Hid & Htag & Hp).
        destruct (Hkeep doc0 Hdoc) as (doc1 & Hdoc1 & Hid1 & Ht1).
        exists doc1, tag. split; [done|]. split; [congruence|].
        split; [apply elem_of_app; by left|]. by rewrite Ht1.
      * destruct (Hkeep row Hrin) as (doc1 & Hdoc1 & Hid1 & Ht1).
        exists doc1, (strftime_tag t1). split; [done|].
        split; [congruence|].
        split; [apply elem_of_app; right; apply list_elem_of_here|].
        by rewrite Ht1, Hpath, Henv.
Qed.

(** C8, as the code has it.  An export that returns has written its file
    at the path made of the slug of the title, the tag of the second and
    the format, and has changed no file at another path.  Along a history
    from an empty store every earlier record carries the path made of the
    slug of its document, the tag of an earlier export and its format; for
    formats without a slash the new path is the path of an earlier record
    exactly when slug, tag and format are all the same, so that an export
    with another slug, in another second or in another format leaves the
    earlier file as it was. *)
Theorem export_with_fresh_tag_keeps_files (e : process_env)
        (fs : gmap str (list N)) (cs : list call) (doc_id : Z)
        (fmt : option str) (now_tag now : datetime)
        (rec : ExportRecord.t) (w' : world) :
  export_document doc_id fmt now_tag now (run (init_world e fs) cs)
  = (Ok rec, w') ->
  exists row,
    select_document doc_id (run (init_world e fs) cs)
    = (Ok (Some row), run (init_world e fs) cs)
    /\ ExportRecord.export_path rec
       = path_join (DOCS_DIR e)
                   (safe_title_of e (Document.title row) ++ py "_"
                    ++ strftime_tag now_tag ++ py "."
                    ++ ExportRecord.export_format rec)
    /\ files w'
       = <[ExportRecord.export_path rec :=
             utf8_encode (wrap_body (ExportRecord.export_format rec)
                                    (Document.title row)
                                    (Document.content row))]>
           (files (run (init_world e fs) cs))
    /\ (forall p, p <> ExportRecord.export_path rec ->
          files w' !! p = files (run (init_world e fs) cs) !! p)
    /\ (forall r,
          r ∈ export_records (conn (run (init_world e fs) cs)) ->
          exists doc tag,
            doc ∈ documents (conn (run (init_world e fs) cs))
            /\ Document.id doc = ExportRecord.document_id r
            /\ tag ∈ export_tags cs
            /\ ExportRecord.export_path r
               = path_join (DOCS_DIR e)
                           (safe_title_of e (Document.title doc) ++ py "_"
                            ++ tag ++ py "." ++ ExportRecord.export_format r)
            /\ ((47 ∉ ExportRecord.export_format r) ->
                (47 ∉ ExportRecord.export_format rec) ->
                (ExportRecord.export_path r = ExportRecord.export_path rec
                 <-> safe_title_of e (Document.title doc)
                     = safe_title_of e (Document.title row)
                     /\ tag = strftime_tag now_tag
                     /\ ExportRecord.export_format r
                        = ExportRecord.export_format rec))
            /\ (ExportRecord.export_path r <> ExportRecord.export_path rec ->
                files w' !! ExportRecord.export_path r
                = files (run (init_world e fs) cs)
                  !! ExportRecord.export_path r))
    /\ ((47 ∉ ExportRecord.export_format rec) ->
        strftime_tag now_tag ∉ export_tags cs ->
        forall r,
          r ∈ export_records (conn (run (init_world e fs) cs)) ->
          47 ∉ ExportRecord.export_format r ->
          ExportRecord.export_path r <> ExportRecord.export_path rec
          /\ files w' !! ExportRecord.export_path r
             = files (run (init_world e fs) cs)
               !! ExportRecord.export_path r).
Proof.
  intros Hex.
  pose proof (run_env (init_world e fs) cs) as Henv.
  cbn [init_world env] in Henv.
  set (w := run (init_world e fs) cs) in *.
  destruct (export_returns _ _ _ _ _ _ _ Hex) as (row & Hsel & _ & _).
  destruct (export_effect doc_id fmt now_tag now w row rec w' Hsel Hex)
    as (_ & _ & _ & _ & _ & Hfiles & _ & _ & _ & Hpath & _).
  rewrite Henv in Hpath.
  assert (Hframe : forall p, p <> ExportRecord.export_path rec ->
                     files w' !! p = files w !! p).
  { intros p Hp. by rewrite Hfiles, lookup_insert_ne. }
  assert (Hsame : forall r doc tag,
            tag ∈ export_tags cs ->
            ExportRecord.export_path r
            = path_join (DOCS_DIR e)
                        (safe_title_of e (Document.title doc) ++ py "_"
                         ++ tag ++ py "." ++ ExportRecord.export_format r) ->
            47 ∉ ExportRecord.export_format r ->
            47 ∉ ExportRecord.export_format rec ->
            ExportRecord.export_path r = ExportRecord.export_path rec ->
            safe_title_of e (Document.title doc)
            = safe_title_of e (Document.title row)
            /\ tag = strftime_tag now_tag
            /\ ExportRecord.export_format r = ExportRecord.export_format rec).
  { intros r doc tag Htag Hp Hfr Hfrec Heq.
    destruct (export_tags_elem _ _ Htag) as [t ->].
    rewrite Hp, Hpath in Heq.
    apply export_path_inj in Heq; [done|..];
      first [apply safe_title_no_slash | apply strftime_tag_no_slash
            | apply safe_title_no_dot | apply strftime_tag_no_dot
            | done]. }
  exists row. do 4 (split; [done|]). split.
  - intros r Hr.
    destruct (export_paths_invariant e fs cs r Hr)
      as (doc & tag & Hdoc & Hid & Htag & Hp).
    exists doc, tag. do 4 (split; [done|]). split; [|by apply Hframe].
    intros Hfr Hfrec. split; [by apply (Hsame r doc tag)|].
    intros (Hs & -> & Hf). by rewrite Hp, Hpath, Hs, Hf.
  - intros Hfrec Hfresh r Hr Hfr.
    destruct (export_paths_invariant e fs cs r Hr)
      as (doc & tag & Hdoc & Hid & Htag & Hp).
    assert (Hne : ExportRecord.export_path r <> ExportRecord.export_path rec).
    { intros Heq.
      destruct (Hsame r doc tag Htag Hp Hfr Hfrec Heq) as (_ & -> & _).
      done. }
    split; [done|]. by apply Hframe.
Qed.

Lemma export_with_fresh_tag_keeps_files_witness :
  exists rec w',
    export_document 2 None new_year_2025 new_year_2025
                    (run (init_world demo_env ∅) two_invoices)
    = (Ok rec, w')
    /\ forall r,
         r ∈ export_records (conn (run (init_world demo_env ∅) two_invoices)) ->
         47 ∉ ExportRecord.export_format r ->
         ExportRecord.export_path r <> ExportRecord.export_path rec.
Proof.
  assert (Hsel : select_document 2 (run (init_world demo_env ∅) two_invoices)
                 = (Ok (Some (Document.mk 2 1 (py "invoice") (py "Invoice #1")
                                (py "Total: 20")
                                (json_dumps_dict [(py "n", py "20")])
                                (py "txt") (py "draft")
                                (isoformat new_year_2024))),
                    run (init_world demo_env ∅) two_invoices)).
  { vm_compute. reflexivity. }
  destruct (export_accepted 2 None new_year_2025 new_year_2025 _ _
                            ltac:(unfold int64; lia) Hsel)
    as (rec & w' & Hex); [vm_compute; reflexivity|].
  exists rec, w'. split; [exact Hex|]. intros r Hr Hfr.
  destruct (export_with_fresh_tag_keeps_files demo_env ∅ two_invoices 2 None
              new_year_2025 new_year_2025 rec w' Hex)
    as (row & _ & _ & _ & _ & _ & Hfresh).
  apply Hfresh; [| |exact Hr|exact Hfr].
  - destruct (export_effect 2 None new_year_2025 new_year_2025 _ _ rec w'
                            Hsel Hex)
      as (_ & _ & _ & _ & _ & _ & _ & _ & Hfmt & _).
    rewrite Hfmt. vm_compute. intros Hin.
    repeat (inversion Hin as [|? ? ? Hin']; subst; clear Hin;
            rename Hin' into Hin).
  - vm_compute. intros Hin. inversion Hin as [|? ? ? Hnil]; inversion Hnil.
Defined.

(** C8, as the claim has it, fails.  Two invoices under one title are
    exported in the same second: the second export writes to the path of
    the first and replaces its file. *)
Lemma export_same_second_overwrites :
  let w := run fresh_world two_invoices in
  let path :=
    py "/home/blackroad/.blackroad/documents/Invoice__1_20240101_000000.txt" in
  let rec1 := ExportRecord.mk 1 1 path (py "txt") 9 (py "2024-01-01T00:00:00") in
  let rec2 := ExportRecord.mk 2 2 path (py "txt") 9 (py "2024-01-01T00:00:00") in
  exists w',
    export_records (conn w) = [rec1]
    /\ files w !! path = Some (utf8_encode (py "Total: 10"))
    /\ export_document 2 None new_year_2024 new_year_2024 w = (Ok rec2, w')
    /\ files w' !! path = Some (utf8_encode (py "Total: 20")).
Proof.
  intros w path rec1 rec2.
  exists (export_document 2 None new_year_2024 new_year_2024 w).2.
  split; [vm_compute; reflexivity|].
  split; [vm_compute; reflexivity|].
  split; [vm_compute; reflexivity|].
  vm_compute. reflexivity.
Qed.

(** * Further properties *)

(** ** Substitution, further *)

Lemma extract_vars_nil (content : str) :
  _extract_vars content = [] <-> re_findall content = [].
Proof.
  destruct (extract_vars_names content) as [_ Hmem]. split; intros H.
  - destruct (re_findall content) as [|g l] eqn:Hf; [done|]. exfalso.
    assert (Hin : strip g ∈ _extract_vars content).
    { apply Hmem. simpl. apply list_elem_of_here. }
    rewrite H in Hin. by apply elem_of_nil in Hin.
  - unfold _extract_vars. by rewrite H.
Qed.

Lemma render_no_match (variables : dict) (content : str) :
  re_findall content = [] -> _render content variables = Ok content.
Proof.
  unfold _render.
  induction content as [|c s Hm IH|s g rest Hm IH] using scan_ind; intros Hf.
  - done.
  - rewrite (re_findall_skip _ _ Hm) in Hf.
    by rewrite (re_sub_skip _ _ _ Hm), (IH Hf).
  - by rewrite (re_findall_match _ _ _ Hm) in Hf.
Qed.

Lemma render_raises_key_error (variables : dict) (content : str) (e : exn) :
  _render content variables = Raise e ->
  exists g, g ∈ re_findall content /\ dict_get variables (strip g) = None
            /\ e = KeyError (missing_variable_msg (strip g)).
Proof.
  intros Hr. pose proof (render_outcome variables content) as H.
  by rewrite Hr in H.
Qed.

(** A text without placeholders is rendered to itself under any mapping,
    and only such a text is rendered by the empty mapping. *)
Theorem render_without_placeholders (content : str) :
  (_extract_vars content = [] ->
   forall variables, _render content variables = Ok content)
  /\ (forall out, _render content [] = Ok out ->
        _extract_vars content = [] /\ out = content).
Proof.
  split.
  - intros H variables. by apply render_no_match, extract_vars_nil.
  - intros out Hr. pose proof (render_outcome [] content) as H.
    rewrite Hr in H.
    assert (Hf : re_findall content = []).
    { destruct (re_findall content) as [|g l]; [done|].
      destruct (H g (list_elem_of_here _ _)) as [v Hv]. done. }
    split; [by apply extract_vars_nil|].
    rewrite (render_no_match [] content Hf) in Hr. by injection Hr.
Qed.

Lemma replace_agree (v1 v2 : dict) (g : str) :
  dict_get v1 (strip g) = dict_get v2 (strip g) -> replace v1 g = replace v2 g.
Proof. unfold replace. by intros ->. Qed.

Lemma render_agree (v1 v2 : dict) (content : str) :
  (forall g, g ∈ re_findall content ->
     dict_get v1 (strip g) = dict_get v2 (strip g)) ->
  _render content v1 = _render content v2.
Proof.
  unfold _render.
  induction content as [|c s Hm IH|s g rest Hm IH] using scan_ind; intros Hag.
  - done.
  - rewrite (re_findall_skip _ _ Hm) in Hag.
    by rewrite !(re_sub_skip _ _ _ Hm), (IH Hag).
  - rewrite (re_findall_match _ _ _ Hm) in Hag.
    rewrite !(re_sub_match _ _ _ _ Hm).
    rewrite (replace_agree v1 v2 g) by (apply Hag, list_elem_of_here).
    destruct (replace v2 g); [|done].
    rewrite IH; [done|]. intros g' Hg'. by apply Hag, list_elem_of_further.
Qed.

(** Rendering reads the mapping at the placeholder names of the text and
    nowhere else: two mappings that agree on the extracted names give the
    same result, the same text or the same error. *)
Theorem render_uses_only_named_variables (content : str) (v1 v2 : dict) :
  (forall k, k ∈ _extract_vars content -> dict_get v1 k = dict_get v2 k) ->
  _render content v1 = _render content v2.
Proof.
  intros H. apply render_agree. intros g Hg. apply H.
  apply extract_vars_elem_of. eauto.
Qed.

Lemma render_uses_only_named_variables_witness :
  _render greeting (alice_42 ++ [(py "unused", py "x")])
  = _render greeting ((py "unused", py "y") :: alice_42).
Proof.
  apply render_uses_only_named_variables. intros k Hk.
  assert (Hin : k ∈ [py "name"; py "amount"]) by exact Hk.
  rewrite !elem_of_cons in Hin.
  destruct Hin as [->|[->|Hnil]]; [reflexivity|reflexivity|].
  by apply elem_of_nil in Hnil.
Defined.

(** ** Calls, one at a time *)

(** What an upsert leaves, in both branches. *)
Lemma create_template_step (n c g : str) (t : datetime) (w : world) :
  call_succeeds w (CreateTemplate n c g t) = true
  /\ env (step w (CreateTemplate n c g t)) = env w
  /\ files (step w (CreateTemplate n c g t)) = files w
  /\ committed (step w (CreateTemplate n c g t))
     = conn (step w (CreateTemplate n c g t))
  /\ documents (conn (step w (CreateTemplate n c g t))) = documents (conn w)
  /\ export_records (conn (step w (CreateTemplate n c g t)))
     = export_records (conn w)
  /\ templates (conn (step w (CreateTemplate n c g t)))
     = match find (fun r => bool_decide (Template.name r = n))
                  (templates (conn w)) with
       | Some old =>
           map (fun r =>
                  if bool_decide (Template.name r = n)
                  then set_template c (json_dumps_list (_extract_vars c)) g
                                    (Template.version old + 1)%Z
                                    (isoformat t) r
                  else r) (templates (conn w))
       | None =>
           templates (conn w)
           ++ [Template.mk (next_rowid (map Template.id (templates (conn w))))
                           n c (json_dumps_list (_extract_vars c)) g 1
                           (isoformat t) (isoformat t)]
       end.
Proof.
  cbn [step call_succeeds]. unfold succeeded.
  destruct (find (fun r => bool_decide (Template.name r = n))
                 (templates (conn w))) as [old|] eqn:Hfind.
  - rewrite (create_template_existing _ _ _ _ w old)
      by (by rewrite select_template_eq, Hfind). done.
  - rewrite (create_template_new _ _ _ _ w)
      by (by rewrite select_template_eq, Hfind). done.
Qed.

(** What a render leaves: nothing changed when it raises, one more draft
    when it returns. *)
Lemma render_step (n t : str) (v : dict) (f : str) (d : datetime) (w : world) :
  (call_succeeds w (Render n t v f d) = false
   /\ step w (Render n t v f d) = w)
  \/ (exists doc,
        call_succeeds w (Render n t v f d) = true
        /\ render n t v f d w = (Ok doc, step w (Render n t v f d))
        /\ env (step w (Render n t v f d)) = env w
        /\ files (step w (Render n t v f d)) = files w
        /\ committed (step w (Render n t v f d))
           = conn (step w (Render n t v f d))
        /\ templates (conn (step w (Render n t v f d))) = templates (conn w)
        /\ export_records (conn (step w (Render n t v f d)))
           = export_records (conn w)
        /\ documents (conn (step w (Render n t v f d)))
           = documents (conn w) ++ [doc]
        /\ Document.id doc = next_rowid (map Document.id (documents (conn w)))
        /\ Document.status doc = py "draft").
Proof.
  cbn [step call_succeeds]. unfold succeeded.
  destruct (render_cases n t v f d w) as [[e ->]|(doc & -> & Hid & Hst)].
  - by left.
  - right. exists doc. done.
Qed.

(** What an export leaves: nothing changed when it raises; when it
    returns, one more record, one file written, and the status of the
    document set. *)
Lemma export_step (i : Z) (f : option str) (t1 t2 : datetime) (w : world) :
  ((exists e, export_document i f t1 t2 w = (Raise e, w))
   /\ call_succeeds w (ExportDocument i f t1 t2) = false
   /\ step w (ExportDocument i f t1 t2) = w)
  \/ (exists row rec,
        row ∈ documents (conn w) /\ Document.id row = i
        /\ call_succeeds w (ExportDocument i f t1 t2) = true
        /\ export_document i f t1 t2 w
           = (Ok rec, step w (ExportDocument i f t1 t2))
        /\ env (step w (ExportDocument i f t1 t2)) = env w
        /\ files (step w (ExportDocument i f t1 t2))
           = <[ExportRecord.export_path rec :=
                 utf8_encode (wrap_body (ExportRecord.export_format rec)
                                        (Document.title row)
                                        (Document.content row))]> (files w)
        /\ committed (step w (ExportDocument i f t1 t2))
           = conn (step w (ExportDocument i f t1 t2))
        /\ templates (conn (step w (ExportDocument i f t1 t2)))
           = templates (conn w)
        /\ documents (conn (step w (ExportDocument i f t1 t2)))
           = map (fun r => if bool_decide (Document.id r = i)
                           then set_exported r else r) (documents (conn w))
        /\ export_records (conn (step w (ExportDocument i f t1 t2)))
           = export_records (conn w) ++ [rec]
        /\ ExportRecord.id rec
           = next_rowid (map ExportRecord.id (export_records (conn w)))
        /\ ExportRecord.document_id rec = i).
Proof.
  cbn [step call_succeeds]. unfold succeeded.
  destruct (export_cases i f t1 t2 w)
    as [[e Hex]|(row & rec & w' & Hsel & Hid & Hin & Hex)].
  - left. rewrite Hex. split; [by exists e|done].
  - right.
    destruct (export_effect i f t1 t2 w row rec w' Hsel Hex)
      as (He & Hc & Ht & Hd & Hr & Hf & Hrid & Hdid & _).
    rewrite Hex. exists row, rec. done.
Qed.

Lemma step_outcome (w : world) (c : call) :
  (call_succeeds w c = false -> step w c = w)
  /\ (call_succeeds w c = true -> committed (step w c) = conn (step w c)).
Proof.
  destruct c as [n c g t|n t v f d|i f t1 t2].
  - destruct (create_template_step n c g t w) as (Hok & _ & _ & Hc & _).
    rewrite Hok. done.
  - destruct (render_step n t v f d w)
      as [[Hno Hw]|(doc & Hok & _ & _ & _ & Hc & _)].
    + rewrite Hno. done.
    + rewrite Hok. done.
  - destruct (export_step i f t1 t2 w)
      as [(_ & Hno & Hw)|(row & rec & _ & _ & Hok & _ & _ & _ & Hc & _)].
    + rewrite Hno. done.
    + rewrite Hok. done.
Qed.

Lemma run_committed (e : process_env) (fs : gmap (list N) (list N))
      (cs : list call) :
  committed (run (init_world e fs) cs) = conn (run (init_world e fs) cs).
Proof.
  induction cs as [|c cs IH] using rev_ind; [done|].
  rewrite run_snoc.
  destruct (step_outcome (run (init_world e fs) cs) c)
    as (Hfail & Hok).
  destruct (call_succeeds (run (init_world e fs) cs) c).
  - by apply Hok.
  - by rewrite (Hfail eq_refl).
Qed.

(** ** Row ids and keys *)

Lemma rowids_S (n : nat) : rowids (S n) = rowids n ++ [Z.of_nat (S n)].
Proof. unfold rowids. by rewrite seq_S, map_app. Qed.

Lemma foldr_max_app (l : list Z) (x : Z) :
  (0 <= x)%Z -> foldr Z.max 0%Z (l ++ [x]) = Z.max (foldr Z.max 0%Z l) x.
Proof.
  intros Hx. induction l as [|y l IH]; simpl; [lia|]. rewrite IH. lia.
Qed.

Lemma next_rowid_rowids (n : nat) : next_rowid (rowids n) = Z.of_nat (S n).
Proof.
  unfold next_rowid.
  assert (H : foldr Z.max 0%Z (rowids n) = Z.of_nat n).
  { induction n as [|n IH]; [done|].
    rewrite rowids_S, foldr_max_app, IH by lia. lia. }
  rewrite H. lia.
Qed.

Lemma rowids_insert {A} (f : A -> Z) (l : list A) (x : A) :
  map f l = rowids (length l) ->
  f x = next_rowid (map f l) ->
  map f (l ++ [x]) = rowids (length (l ++ [x])).
Proof.
  intros H Hx. rewrite map_app, length_app. simpl.
  rewrite Nat.add_1_r, rowids_S, Hx, H, next_rowid_rowids. done.
Qed.

Lemma rowids_NoDup (n : nat) : NoDup (rowids n).
Proof.
  unfold rowids. apply NoDup_fmap_2; [intros ? ? ?; lia|apply NoDup_seq].
Qed.

Lemma set_template_ids (n c v g ts : str) (ver : Z) (l : list Template.t) :
  map Template.id
      (map (fun r => if bool_decide (Template.name r = n)
                     then set_template c v g ver ts r else r) l)
  = map Template.id l.
Proof.
  induction l as [|r l IH]; simpl; [done|]. rewrite IH. by case_bool_decide.
Qed.

Lemma set_template_names (n c v g ts : str) (ver : Z) (l : list Template.t) :
  map Template.name
      (map (fun r => if bool_decide (Template.name r = n)
                     then set_template c v g ver ts r else r) l)
  = map Template.name l.
Proof.
  induction l as [|r l IH]; simpl; [done|]. rewrite IH. by case_bool_decide.
Qed.

Lemma find_name_none (n : str) (l : list Template.t) :
  find (fun r => bool_decide (Template.name r = n)) l = None ->
  n ∉ map Template.name l.
Proof.
  intros Hfind (r & -> & Hr)%list_elem_of_fmap.
  rewrite find_none_iff in Hfind. specialize (Hfind r Hr).
  by rewrite bool_decide_eq_true_2 in Hfind.
Qed.

(** The keys along a history from an empty store. *)
Lemma keys_invariant (e : process_env) (fs : gmap (list N) (list N))
      (cs : list call) :
  let db := conn (run (init_world e fs) cs) in
  map Template.id (templates db) = rowids (length (templates db))
  /\ NoDup (map Template.name (templates db))
  /\ map Document.id (documents db) = rowids (length (documents db))
  /\ map ExportRecord.id (export_records db)
     = rowids (length (export_records db)).
Proof.
  induction cs as [|c cs IH] using rev_ind.
  - cbn. repeat split; constructor.
  - cbv zeta in IH |- *. rewrite run_snoc.
    set (w := run (init_world e fs) cs) in *.
    destruct IH as (Ht & Hn & Hd & Hr).
    destruct c as [n c g t|n t v f d|i f t1 t2].
    + destruct (create_template_step n c g t w)
        as (_ & _ & _ & _ & -> & -> & ->).
      split; [|split; [|done]].
      * destruct (find _ (templates (conn w))) as [old|] eqn:Hfind.
        -- by rewrite set_template_ids, length_map.
        -- by apply rowids_insert.
      * destruct (find _ (templates (conn w))) as [old|] eqn:Hfind.
        -- by rewrite set_template_names.
        -- rewrite map_app. cbn [map Template.name].
           apply NoDup_app. split; [done|]. split; [|apply NoDup_singleton].
           intros x Hx ->%list_elem_of_singleton.
           by apply (find_name_none _ _ Hfind).
    + destruct (render_step n t v f d w)
        as [[_ ->]|(doc & _ & _ & _ & _ & _ & -> & -> & -> & Hid & _)];
        [done|].
      split; [done|]. split; [done|]. split; [|done].
      by apply rowids_insert.
    + destruct (export_step i f t1 t2 w)
        as [(_ & _ & ->)
           |(row & rec & _ & _ & _ & _ & _ & _ & _ & -> & -> & -> & Hid & _)];
        [done|].
      split; [done|]. split; [done|]. split.
      * by rewrite update_exported_ids, length_map.
      * by apply rowids_insert.
Qed.

Lemma find_by_key {A K} `{EqDecision K} (f : A -> K) (l : list A) (i : nat)
      (x : A) :
  NoDup (map f l) -> l !! i = Some x ->
  find (fun r => bool_decide (f r = f x)) l = Some x.
Proof.
  revert i. induction l as [|y l IH]; intros i Hnd Hi; [done|].
  simpl in Hnd. apply NoDup_cons in Hnd as [Hy Hnd]. simpl.
  destruct i as [|i]; simpl in Hi.
  - injection Hi as ->. by rewrite bool_decide_eq_true_2.
  - rewrite bool_decide_eq_false_2; [by apply (IH i)|].
    intros Heq. apply Hy. rewrite Heq. apply list_elem_of_fmap.
    exists x. split; [done|]. by apply list_elem_of_lookup_2 in Hi.
Qed.

Lemma rowids_lookup (n i : nat) :
  (i < n)%nat -> rowids n !! i = Some (Z.of_nat (S i)).
Proof.
  intros Hi. unfold rowids. rewrite list_lookup_fmap, lookup_seq_lt by done.
  done.
Qed.

(** ** Templates along a history *)

Lemma upserts_snoc (name : str) (cs : list call) (c : call) :
  upserts name (cs ++ [c])
  = upserts name cs
    ++ match c with
       | CreateTemplate n c g t =>
           if bool_decide (n = name) then [(c, g, t)] else []
       | _ => []
       end.
Proof. unfold upserts. by rewrite flat_map_app; simpl; rewrite app_nil_r. Qed.

Lemma find_name_after_update (n name c v g ts : str) (ver : Z)
      (l : list Template.t) :
  find (fun r => bool_decide (Template.name r = name))
       (map (fun r => if bool_decide (Template.name r = n)
                      then set_template c v g ver ts r else r) l)
  = (fun r => if bool_decide (Template.name r = n)
              then set_template c v g ver ts r else r)
      <$> find (fun r => bool_decide (Template.name r = name)) l.
Proof. apply find_map_stable. key_stable. Qed.

(** The row under a name: absent before the first upsert of the name;
    afterwards its version counts the upserts, it was created at the first
    and holds what the last one gave. *)
Lemma template_history (e : process_env) (fs : gmap (list N) (list N))
      (cs : list call) (name : str) :
  match last (upserts name cs) with
  | None =>
      find (fun r => bool_decide (Template.name r = name))
           (templates (conn (run (init_world e fs) cs))) = None
  | Some (c, g, t) =>
      exists row,
        find (fun r => bool_decide (Template.name r = name))
             (templates (conn (run (init_world e fs) cs))) = Some row
        /\ Template.name row = name
        /\ Template.version row = Z.of_nat (length (upserts name cs))
        /\ Template.content row = c
        /\ Template.variables row = json_dumps_list (_extract_vars c)
        /\ Template.category row = g
        /\ Template.updated_at row = isoformat t
        /\ (forall c0 g0 t0, head (upserts name cs) = Some (c0, g0, t0) ->
              Template.created_at row = isoformat t0)
  end.
Proof.
  induction cs as [|c cs IH] using rev_ind; [done|].
  rewrite run_snoc, upserts_snoc.
  set (w := run (init_world e fs) cs) in *.
  destruct c as [n c g t|n t v f d|i f t1 t2].
  - destruct (create_template_step n c g t w) as (_ & _ & _ & _ & _ & _ & ->).
    case_bool_decide as Hn.
    + subst n. rewrite last_snoc.
      destruct (last (upserts name cs)) as [[[c' g'] t']|] eqn:Hlast.
      * destruct IH as (row & Hfind & Hname & Hver & _ & _ & _ & _ & Hcr).
        rewrite Hfind, find_name_after_update, Hfind.
        cbn [fmap option_fmap option_map].
        rewrite (bool_decide_eq_true_2 _ Hname).
        eexists. split; [done|]. cbn. split; [done|].
        split; [rewrite Hver, length_app; simpl; lia|].
        do 4 (split; [done|]).
        intros c0 g0 t0 Hhead. apply (Hcr c0 g0 t0).
        destruct (upserts name cs); [done|]. done.
      * rewrite IH, find_app, IH. cbn [find Template.name].
        rewrite bool_decide_eq_true_2 by done.
        apply last_None in Hlast. rewrite Hlast.
        eexists. split; [done|]. cbn. do 6 (split; [done|]).
        by intros c0 g0 t0 [= <- <- <-].
    + rewrite app_nil_r.
      assert (Hsame : find (fun r => bool_decide (Template.name r = name))
                (match find (fun r => bool_decide (Template.name r = n))
                            (templates (conn w)) with
                 | Some old =>
                     map (fun r =>
                            if bool_decide (Template.name r = n)
                            then set_template c
                                   (json_dumps_list (_extract_vars c)) g
                                   (Template.version old + 1)%Z (isoformat t) r
                            else r) (templates (conn w))
                 | None =>
                     templates (conn w)
                     ++ [Template.mk
                           (next_rowid (map Template.id (templates (conn w))))
                           n c (json_dumps_list (_extract_vars c)) g 1
                           (isoformat t) (isoformat t)]
                 end)
              = find (fun r => bool_decide (Template.name r = name))
                     (templates (conn w))).
      { destruct (find (fun r => bool_decide (Template.name r = n))
                       (templates (conn w))) as [old|].
        - rewrite find_name_after_update.
          destruct (find (fun r => bool_decide (Template.name r = name))
                         (templates (conn w))) as [r|] eqn:Hr; [|done].
          apply find_some in Hr as [_ Hr]. apply bool_decide_eq_true_1 in Hr.
          cbn [fmap option_fmap option_map].
          rewrite bool_decide_eq_false_2 by congruence. done.
        - rewrite find_app.
          destruct (find (fun r => bool_decide (Template.name r = name))
                         (templates (conn w))); [done|].
          cbn [find Template.name]. by rewrite bool_decide_eq_false_2. }
      rewrite Hsame. exact IH.
  - rewrite app_nil_r.
    destruct (render_step n t v f d w)
      as [[_ ->]|(doc & _ & _ & _ & _ & _ & -> & _)]; exact IH.
  - rewrite app_nil_r.
    destruct (export_step i f t1 t2 w)
      as [(_ & _ & ->)|(row & rec & _ & _ & _ & _ & _ & _ & _ & -> & _)];
      exact IH.
Qed.

Lemma dict_fromkeys_snoc (l : list (list N)) (n : list N) :
  dict_fromkeys (l ++ [n])
  = if bool_decide (n ∈ dict_fromkeys l) then dict_fromkeys l
    else dict_fromkeys l ++ [n].
Proof. unfold dict_fromkeys. by rewrite fold_left_app. Qed.

Lemma created_names_snoc (cs : list call) (c : call) :
  created_names (cs ++ [c])
  = created_names cs ++ match c with
                        | CreateTemplate n _ _ _ => [n]
                        | _ => []
                        end.
Proof.
  unfold created_names. by rewrite flat_map_app; simpl; rewrite app_nil_r.
Qed.

Lemma find_name_some (n : str) (l : list Template.t) (r : Template.t) :
  find (fun r => bool_decide (Template.name r = n)) l = Some r ->
  n ∈ map Template.name l.
Proof.
  intros [Hin Hn]%find_some. apply bool_decide_eq_true_1 in Hn.
  apply list_elem_of_fmap. exists r. split; [done|]. by apply list_elem_of_In.
Qed.

(** The templates are the names upserted, in the order of their first
    upsert. *)
Lemma template_names (e : process_env) (fs : gmap (list N) (list N))
      (cs : list call) :
  map Template.name (templates (conn (run (init_world e fs) cs)))
  = dict_fromkeys (created_names cs).
Proof.
  induction cs as [|c cs IH] using rev_ind; [done|].
  rewrite run_snoc, created_names_snoc.
  set (w := run (init_world e fs) cs) in *.
  destruct c as [n c g t|n t v f d|i f t1 t2].
  - destruct (create_template_step n c g t w) as (_ & _ & _ & _ & _ & _ & ->).
    rewrite dict_fromkeys_snoc, <- IH.
    destruct (find _ (templates (conn w))) as [old|] eqn:Hfind.
    + rewrite set_template_names.
      by rewrite bool_decide_eq_true_2 by (by eapply find_name_some).
    + rewrite map_app.
      by rewrite bool_decide_eq_false_2 by (by apply find_name_none).
  - rewrite app_nil_r.
    destruct (render_step n t v f d w)
      as [[_ ->]|(doc & _ & _ & _ & _ & _ & -> & _)]; exact IH.
  - rewrite app_nil_r.
    destruct (export_step i f t1 t2 w)
      as [(_ & _ & ->)|(row & rec & _ & _ & _ & _ & _ & _ & _ & -> & _)];
      exact IH.
Qed.

Lemma returned_app (w : world) (cs cs' : list call) :
  returned w (cs ++ cs') = returned w cs ++ returned (run w cs) cs'.
Proof.
  revert w. induction cs as [|c cs IH]; intros w; [done|].
  simpl. by rewrite IH, <- app_assoc.
Qed.

Lemma returned_snoc (w : world) (cs : list call) (c : call) :
  returned w (cs ++ [c])
  = returned w cs ++ (if call_succeeds (run w cs) c then [c] else []).
Proof. rewrite returned_app. simpl. by rewrite app_nil_r. Qed.

(** ** Documents and records along a history *)

Lemma same_document_refl (d : Document.t) : same_document d d.
Proof. by repeat split. Qed.

Lemma same_document_exported (d : Document.t) : same_document d (set_exported d).
Proof. by repeat split. Qed.

(** A call keeps every document in its place and changes at most its
    status, to exported. *)
Lemma step_documents (w : world) (c : call) (i : nat) (d : Document.t) :
  documents (conn w) !! i = Some d ->
  exists d',
    documents (conn (step w c)) !! i = Some d'
    /\ same_document d d'
    /\ (Document.status d' = Document.status d
        \/ Document.status d' = py "exported").
Proof.
  intros Hi. destruct c as [n c g t|n t v f dt|j f t1 t2].
  - destruct (create_template_step n c g t w) as (_ & _ & _ & _ & -> & _).
    exists d. split; [done|]. split; [apply same_document_refl|by left].
  - destruct (render_step n t v f dt w)
      as [[_ ->]|(doc & _ & _ & _ & _ & _ & _ & _ & -> & _)].
    + exists d. split; [done|]. split; [apply same_document_refl|by left].
    + exists d. split; [by apply lookup_app_l_Some|].
      split; [apply same_document_refl|by left].
  - destruct (export_step j f t1 t2 w)
      as [(_ & _ & ->)|(row & rec & _ & _ & _ & _ & _ & _ & _ & _ & -> & _)].
    + exists d. split; [done|]. split; [apply same_document_refl|by left].
    + eexists. split; [by rewrite list_lookup_fmap, Hi|].
      case_bool_decide.
      * split; [apply same_document_exported|by right].
      * split; [apply same_document_refl|by left].
Qed.

(** No call removes or moves a document, and nothing but its status ever
    changes; the status stays as it is or becomes exported. *)
Theorem documents_keep_their_fields (w : world) (cs : list call) (i : nat)
        (d : Document.t) :
  documents (conn w) !! i = Some d ->
  exists d',
    documents (conn (run w cs)) !! i = Some d'
    /\ same_document d d'
    /\ (Document.status d' = Document.status d
        \/ Document.status d' = py "exported").
Proof.
  induction cs as [|c cs IH] using rev_ind; intros Hi.
  - exists d. split; [done|]. split; [apply same_document_refl|by left].
  - destruct (IH Hi) as (d1 & H1 & Hs1 & Hst1). rewrite run_snoc.
    destruct (step_documents (run w cs) c i d1 H1) as (d2 & H2 & Hs2 & Hst2).
    exists d2. split; [done|]. split.
    + destruct Hs1 as (?&?&?&?&?&?&?&?), Hs2 as (?&?&?&?&?&?&?&?).
      repeat split; congruence.
    + destruct Hst2 as [Hst2|Hst2]; [|by right].
      rewrite Hst2. destruct Hst1; [by left|by right].
Qed.

Lemma step_export_records (w : world) (c : call) :
  exists more, export_records (conn (step w c))
               = export_records (conn w) ++ more.
Proof.
  destruct c as [n c g t|n t v f dt|j f t1 t2].
  - destruct (create_template_step n c g t w) as (_ & _ & _ & _ & _ & -> & _).
    exists []. by rewrite app_nil_r.
  - destruct (render_step n t v f dt w)
      as [[_ ->]|(doc & _ & _ & _ & _ & _ & _ & -> & _)];
      exists []; by rewrite app_nil_r.
  - destruct (export_step j f t1 t2 w)
      as [(_ & _ & ->)|(row & rec & _ & _ & _ & _ & _ & _ & _ & _ & _ & -> & _)].
    + exists []. by rewrite app_nil_r.
    + by exists [rec].
Qed.

Lemma run_export_records (w : world) (cs : list call) :
  exists more, export_records (conn (run w cs))
               = export_records (conn w) ++ more.
Proof.
  induction cs as [|c cs [more IH]] using rev_ind.
  - exists []. by rewrite app_nil_r.
  - rewrite run_snoc.
    destruct (step_export_records (run w cs) c) as [more' ->].
    exists (more ++ more'). by rewrite IH, app_assoc.
Qed.

(** Records and exported documents go together, and the file of a record
    is there. *)
Lemma records_invariant (e : process_env) (fs : gmap (list N) (list N))
      (cs : list call) :
  let w := run (init_world e fs) cs in
  (forall rec, rec ∈ export_records (conn w) ->
     (exists doc, doc ∈ documents (conn w)
                  /\ Document.id doc = ExportRecord.document_id rec
                  /\ Document.status doc = py "exported")
     /\ is_Some (files w !! ExportRecord.export_path rec))
  /\ (forall doc, doc ∈ documents (conn w) ->
        Document.status doc = py "exported" ->
        exists rec, rec ∈ export_records (conn w)
                    /\ ExportRecord.document_id rec = Document.id doc).
Proof.
  induction cs as [|c cs IH] using rev_ind.
  - split; [intros rec Hin|intros doc Hin]; by apply elem_of_nil in Hin.
  - cbv zeta in IH |- *. rewrite run_snoc.
    set (w := run (init_world e fs) cs) in *. destruct IH as [IHr IHd].
    destruct c as [n c g t|n t v f dt|j f t1 t2].
    + destruct (create_template_step n c g t w)
        as (_ & _ & -> & _ & -> & -> & _). done.
    + destruct (render_step n t v f dt w)
        as [[_ ->]|(doc & _ & _ & _ & -> & _ & _ & -> & -> & _ & Hst)];
        [done|].
      split.
      * intros rec Hrec. destruct (IHr rec Hrec) as [(d & Hd & ? & ?) Hf].
        split; [|done]. exists d. rewrite elem_of_app. tauto.
      * intros d [Hd| ->%list_elem_of_singleton]%elem_of_app Hexp.
        -- by apply IHd.
        -- rewrite Hst in Hexp. by apply draft_not_exported in Hexp.
    + destruct (export_step j f t1 t2 w)
        as [(_ & _ & ->)
           |(row & rec & Hrow & Hid & _ & _ & _ & -> & _ & _ & -> & -> & _ & Hdid)];
        [done|].
      assert (Hkeep : forall d, d ∈ documents (conn w) ->
                Document.status d = py "exported" ->
                exists d', d' ∈ map (fun r => if bool_decide (Document.id r = j)
                                              then set_exported r else r)
                                    (documents (conn w))
                           /\ Document.id d' = Document.id d
                           /\ Document.status d' = py "exported").
      { intros d Hd Hst. eexists. split.
        - apply list_elem_of_fmap. exists d. split; [done|exact Hd].
        - by case_bool_decide. }
      split.
      * intros r [Hr| ->%list_elem_of_singleton]%elem_of_app.
        -- destruct (IHr r Hr) as [(d & Hd & Hdid' & Hst) Hf]. split.
           ++ destruct (Hkeep d Hd Hst) as (d' & ? & ? & ?).
              exists d'. split; [done|]. split; [congruence|done].
           ++ by apply lookup_insert_is_Some'; right.
        -- split.
           ++ exists (set_exported row). split; [|split; [by rewrite Hdid|done]].
              apply list_elem_of_fmap. exists row.
              split; [by rewrite bool_decide_eq_true_2|done].
           ++ rewrite lookup_insert_eq. by eexists.
      * intros d (r & -> & Hr)%list_elem_of_fmap Hst.
        case_bool_decide as Hrj.
        -- exists rec. split; [apply elem_of_app; right; apply list_elem_of_here|].
           by rewrite Hdid.
        -- destruct (IHd r Hr Hst) as (r' & Hr' & ?).
           exists r'. split; [apply elem_of_app; by left|done].
Qed.

(** ** Statistics *)

Lemma pipeline_status_eq (w : world) :
  pipeline_status w
  = (Ok (PipelineStatus.mk
           (Z.of_nat (length (templates (conn w))))
           (Z.of_nat (length (documents (conn w))))
           (count_status (py "draft") (documents (conn w)))
           (count_status (py "exported") (documents (conn w)))
           (Z.of_nat (length (export_records (conn w))))), w).
Proof. reflexivity. Qed.

(** The counts of rows are the counts of the calls that returned. *)
Lemma rows_count_calls (e : process_env) (fs : gmap (list N) (list N))
      (cs : list call) :
  let w := run (init_world e fs) cs in
  length (documents (conn w))
  = length (List.filter is_render (returned (init_world e fs) cs))
  /\ length (export_records (conn w))
     = length (List.filter is_export (returned (init_world e fs) cs)).
Proof.
  induction cs as [|c cs IH] using rev_ind; [done|].
  cbv zeta in IH |- *. rewrite run_snoc, returned_snoc, !List.filter_app.
  rewrite !length_app.
  set (w := run (init_world e fs) cs) in *. destruct IH as [IHd IHr].
  destruct c as [n c g t|n t v f dt|j f t1 t2].
  - destruct (create_template_step n c g t w)
      as (-> & _ & _ & _ & -> & -> & _). simpl. lia.
  - destruct (render_step n t v f dt w)
      as [[-> ->]|(doc & -> & _ & _ & _ & _ & _ & -> & -> & _)].
    + simpl. lia.
    + rewrite length_app. simpl. lia.
  - destruct (export_step j f t1 t2 w)
      as [(_ & -> & ->)
         |(row & rec & _ & _ & -> & _ & _ & _ & _ & _ & -> & -> & _)].
    + simpl. lia.
    + rewrite length_app, length_map. simpl. lia.
Qed.

Lemma count_status_split (docs : list Document.t) :
  (forall d, d ∈ docs -> Document.status d = py "draft"
                         \/ Document.status d = py "exported") ->
  (count_status (py "draft") docs + count_status (py "exported") docs
   = Z.of_nat (length docs))%Z.
Proof.
  unfold count_status. induction docs as [|d docs IH]; intros H; [done|].
  assert (IH' := IH (fun d' Hd' => H d' (list_elem_of_further _ _ _ Hd'))).
  pose proof draft_not_exported as Hne.
  rewrite !filter_cons.
  destruct (H d (list_elem_of_here _ _)) as [Hd|Hd];
    repeat case_decide; simpl length; first [lia | congruence].
Qed.

Lemma status_draft_or_exported (e : process_env) (fs : gmap (list N) (list N))
      (cs : list call) (d : Document.t) :
  d ∈ documents (conn (run (init_world e fs) cs)) ->
  Document.status d = py "draft" \/ Document.status d = py "exported".
Proof.
  intros Hd. destruct (lifecycle_invariant e fs cs) as [H _].
  destruct (H d Hd) as [[? _]|[? _]]; [by left|by right].
Qed.

(** No more exported documents than records. *)
Lemma exported_le_records (e : process_env) (fs : gmap (list N) (list N))
      (cs : list call) :
  let db := conn (run (init_world e fs) cs) in
  (count_status (py "exported") (documents db)
   <= Z.of_nat (length (export_records db)))%Z.
Proof.
  intros db. unfold count_status. apply inj_le.
  destruct (keys_invariant e fs cs) as (_ & _ & Hids & _).
  destruct (records_invariant e fs cs) as [_ Hrec]. fold db in Hids, Hrec.
  set (exp := filter (fun r => Document.status r = py "exported")
                     (documents db)).
  rewrite <- (length_map Document.id exp).
  rewrite <- (length_map ExportRecord.document_id (export_records db)).
  apply submseteq_length, NoDup_submseteq.
  - assert (Hnd : NoDup (map Document.id (documents db))).
    { rewrite Hids. apply rowids_NoDup. }
    unfold exp. clear -Hnd.
    induction (documents db) as [|d l IH]; [constructor|].
    simpl in Hnd. apply NoDup_cons in Hnd as [Hd Hnd].
    rewrite filter_cons. case_decide as Hs; [|by apply IH].
    simpl. constructor; [|by apply IH].
    intros (x & Hx & Hin)%list_elem_of_fmap. apply Hd.
    apply list_elem_of_fmap. exists x. split; [done|].
    by apply list_elem_of_filter in Hin as [_ ?].
  - intros i (d & -> & Hd)%list_elem_of_fmap.
    apply list_elem_of_filter in Hd as [Hst Hd].
    destruct (Hrec d Hd Hst) as (r & Hr & Hrd).
    apply list_elem_of_fmap. exists r. done.
Qed.

(** ** Ordering *)

Lemma bytes_le_refl (a : list N) : bytes_le a a = true.
Proof.
  induction a as [|x a IH]; [done|]. simpl.
  by rewrite N.ltb_irrefl.
Qed.

Lemma bytes_le_total (a b : list N) : bytes_le a b = true \/ bytes_le b a = true.
Proof.
  revert b. induction a as [|x a IH]; intros [|y b]; simpl; auto.
  destruct (N.ltb_spec x y), (N.ltb_spec y x); auto; lia.
Qed.

Lemma bytes_le_trans (a b c : list N) :
  bytes_le a b = true -> bytes_le b c = true -> bytes_le a c = true.
Proof.
  revert b c. induction a as [|x a IH]; intros [|y b] [|z c]; simpl; try done.
  destruct (N.ltb_spec x y), (N.ltb_spec y x), (N.ltb_spec y z),
    (N.ltb_spec z y), (N.ltb_spec x z), (N.ltb_spec z x);
    try done; try lia.
  apply IH.
Qed.

Lemma bytes_le_antisym (a b : list N) :
  bytes_le a b = true -> bytes_le b a = true -> a = b.
Proof.
  revert b. induction a as [|x a IH]; intros [|y b]; simpl; try done.
  destruct (N.ltb_spec x y), (N.ltb_spec y x); try done; try lia.
  intros H1 H2. f_equal; [lia|by apply IH].
Qed.

Section order_by.
Context {A : Type} (le : A -> A -> bool).
Hypothesis le_total : forall a b, le a b = true \/ le b a = true.
Hypothesis le_trans :
  forall a b c, le a b = true -> le b c = true -> le a c = true.

Lemma insert_by_perm (x : A) (l : list A) : insert_by le x l ≡ₚ x :: l.
Proof.
  induction l as [|y l IH]; simpl; [done|].
  destruct (le x y); [done|]. rewrite IH. apply Permutation_swap.
Qed.

Lemma order_by_perm (l : list A) : order_by le l ≡ₚ l.
Proof.
  induction l as [|x l IH]; simpl; [done|].
  by rewrite insert_by_perm, IH.
Qed.

Lemma insert_by_sorted (x : A) (l : list A) :
  StronglySorted (fun a b => le a b = true) l ->
  StronglySorted (fun a b => le a b = true) (insert_by le x l).
Proof.
  induction l as [|y l IH]; simpl; intros Hs.
  - repeat constructor.
  - apply StronglySorted_inv in Hs as [Hs Hy].
    destruct (le x y) eqn:Hxy.
    + constructor; [by constructor|].
      constructor; [done|]. eapply Forall_impl; [exact Hy|].
      intros z Hz. by eapply le_trans.
    + constructor; [by apply IH|].
      rewrite insert_by_perm. constructor; [|done].
      destruct (le_total x y); [congruence|done].
Qed.

Lemma order_by_sorted (l : list A) :
  StronglySorted (fun a b => le a b = true) (order_by le l).
Proof.
  induction l as [|x l IH]; simpl; [constructor|]. by apply insert_by_sorted.
Qed.
End order_by.

Lemma StronglySorted_fmap {A B} (R : A -> A -> Prop) (S : B -> B -> Prop)
      (f : A -> B) (l : list A) :
  (forall a b, R a b -> S (f a) (f b)) ->
  StronglySorted R l -> StronglySorted S (map f l).
Proof.
  intros H. induction 1 as [|x l Hs IH Hx]; simpl; constructor; [done|].
  apply Forall_fmap. eapply Forall_impl; [exact Hx|]. intros y Hy. by apply H.
Qed.

Lemma sql_limit_split {A} (limit : Z) (l : list A) :
  exists rest,
    l = sql_limit limit l ++ rest
    /\ ((limit < 0)%Z -> rest = [])
    /\ length (sql_limit limit l)
       = if (limit <? 0)%Z then length l
         else Nat.min (Z.to_nat limit) (length l).
Proof.
  unfold sql_limit. destruct (Z.ltb_spec limit 0).
  - exists []. by rewrite app_nil_r.
  - exists (drop (Z.to_nat limit) l). rewrite take_drop, length_take.
    split; [done|]. split; [lia|done].
Qed.

Lemma text_le_total (a b : list N) : text_le a b = true \/ text_le b a = true.
Proof. apply bytes_le_total. Qed.

Lemma text_le_trans (a b c : list N) :
  text_le a b = true -> text_le b c = true -> text_le a c = true.
Proof. apply bytes_le_trans. Qed.

Lemma list_templates_eq (w : world) :
  list_templates w
  = (Ok (map template_row
             (order_by (fun a b => text_le (Template.name a) (Template.name b))
                       (templates (conn w)))), w).
Proof. reflexivity. Qed.

Lemma list_documents_eq (limit : Z) (w : world) :
  int64 limit ->
  list_documents limit w
  = (Ok (map document_row
             (sql_limit limit
                (order_by (fun a b => text_le (Document.created_at b)
                                              (Document.created_at a))
                          (documents (conn w))))), w).
Proof.
  intros Hn. unfold list_documents, bind. by rewrite (bind_int_ok _ _ Hn).
Qed.

Lemma list_documents_overflow (limit : Z) (w : world) :
  ~ int64 limit -> list_documents limit w = (Raise OverflowError, w).
Proof.
  intros Hn. unfold list_documents, bind.
  by rewrite (bind_int_overflow _ _ Hn).
Qed.

Lemma list_templates_rows (w : world) :
  exists rows,
    list_templates w = (Ok rows, w)
    /\ rows ≡ₚ map template_row (templates (conn w))
    /\ StronglySorted (fun a b => text_le (TemplateRow.name a)
                                          (TemplateRow.name b) = true) rows.
Proof.
  eexists. split; [apply list_templates_eq|]. split.
  - apply fmap_Permutation, order_by_perm.
  - eapply StronglySorted_fmap; [|apply order_by_sorted].
    + intros a b H. exact H.
    + intros a b. apply text_le_total.
    + intros a b c. apply text_le_trans.
Qed.

Lemma list_documents_rows (limit : Z) (w : world) :
  int64 limit ->
  exists rows rest,
    list_documents limit w = (Ok rows, w)
    /\ rows ++ rest ≡ₚ map document_row (documents (conn w))
    /\ StronglySorted (fun a b => text_le (DocumentRow.created_at b)
                                          (DocumentRow.created_at a) = true)
                      (rows ++ rest)
    /\ ((limit < 0)%Z -> rest = [])
    /\ length rows
       = if (limit <? 0)%Z then length (documents (conn w))
         else Nat.min (Z.to_nat limit) (length (documents (conn w))).
Proof.
  intros Hn.
  set (le := fun a b => text_le (Document.created_at b) (Document.created_at a)).
  destruct (sql_limit_split limit (order_by le (documents (conn w))))
    as (rest & Hsplit & Hneg & Hlen).
  exists (map document_row (sql_limit limit (order_by le (documents (conn w))))),
         (map document_row rest).
  split; [by apply list_documents_eq|].
  rewrite <- map_app, <- Hsplit. split; [|split; [|split]].
  - apply fmap_Permutation, order_by_perm.
  - eapply StronglySorted_fmap; [|apply order_by_sorted].
    + intros a b H. exact H.
    + intros a b. apply text_le_total.
    + intros a b c H1 H2. unfold le in *. by eapply text_le_trans.
  - intros Hl. by rewrite (Hneg Hl).
  - rewrite length_map, Hlen.
    rewrite (Permutation_length (order_by_perm le (documents (conn w)))).
    done.
Qed.

(** ** Timestamps in order *)

Lemma utf8_encode_ascii (s : list N) :
  Forall (fun c => c < 128) s -> utf8_encode s = s.
Proof.
  unfold utf8_encode. induction 1 as [|c s Hc _ IH]; [done|].
  simpl. rewrite IH. unfold utf8_char.
  destruct (N.ltb_spec c 128); [done|lia].
Qed.

Lemma bytes_le_app_same (p a b : list N) :
  bytes_le (p ++ a) (p ++ b) = bytes_le a b.
Proof. induction p as [|x p IH]; [done|]. simpl. by rewrite N.ltb_irrefl. Qed.

(** [a] comes strictly before [b]. *)
Lemma bytes_lt_app (a b x y : list N) :
  length a = length b -> bytes_le b a = false ->
  bytes_le (b ++ y) (a ++ x) = false.
Proof.
  revert b. induction a as [|c a IH]; intros [|d b] Hlen H; simpl in *;
    try done.
  destruct (d <? c); [done|]. destruct (c <? d); [done|].
  apply IH; [lia|done].
Qed.

Lemma pad2_lt (n m : N) : n < m -> m < 100 -> bytes_le (pad2 m) (pad2 n) = false.
Proof.
  intros Hnm Hm. unfold pad2, digit. cbn [bytes_le].
  assert (Hn : n < 100) by lia.
  assert (n / 10 < 10) by (apply N.Div0.div_lt_upper_bound; lia).
  assert (m / 10 < 10) by (apply N.Div0.div_lt_upper_bound; lia).
  rewrite !(N.mod_small (_ / 10)) by done.
  pose proof (N.div_mod n 10 ltac:(done)) as En.
  pose proof (N.div_mod m 10 ltac:(done)) as Em.
  pose proof (N.mod_upper_bound n 10 ltac:(done)).
  pose proof (N.mod_upper_bound m 10 ltac:(done)).
  set (qn := n / 10) in *. set (qm := m / 10) in *.
  set (rn := n mod 10) in *. set (rm := m mod 10) in *.
  clearbody qn qm rn rm.
  destruct (N.ltb_spec (48 + qm) (48 + qn)); [lia|].
  destruct (N.ltb_spec (48 + qn) (48 + qm)); [done|].
  destruct (N.ltb_spec (48 + rm) (48 + rn)); [lia|].
  destruct (N.ltb_spec (48 + rn) (48 + rm)); [done|lia].
Qed.

Lemma mod_mul_div (b c n : N) : b <> 0 -> (n mod (b * c)) / b = (n / b) mod c.
Proof.
  intros Hb. rewrite N.Div0.mod_mul_r.
  rewrite (N.mul_comm b), N.div_add by done.
  rewrite N.div_small by (by apply N.mod_upper_bound). done.
Qed.

Lemma mod_mul_mod (b c n : N) : b <> 0 -> (n mod (b * c)) mod b = n mod b.
Proof.
  intros Hb. rewrite N.Div0.mod_mul_r.
  rewrite (N.mul_comm b), N.Div0.mod_add. apply N.Div0.mod_mod.
Qed.

Lemma digit_mod (a b : N) : a mod 10 = b mod 10 -> digit a = digit b.
Proof. unfold digit. by intros ->. Qed.

Lemma pad4_split (n : N) : pad4 n = pad2 (n / 100) ++ pad2 (n mod 100).
Proof.
  unfold pad4, pad2. cbn [app].
  rewrite N.Div0.div_div. change (100 * 10) with 1000.
  assert (H1 : digit (n mod 100 / 10) = digit (n / 10)).
  { apply digit_mod. change 100 with (10 * 10).
    rewrite mod_mul_div by done. apply N.Div0.mod_mod. }
  assert (H2 : digit (n mod 100) = digit n).
  { apply digit_mod. change 100 with (10 * 10). by apply mod_mul_mod. }
  by rewrite H1, H2.
Qed.

Lemma pad6_split (n : N) : pad6 n = pad2 (n / 10000) ++ pad4 (n mod 10000).
Proof.
  unfold pad6, pad4, pad2. cbn [app].
  rewrite N.Div0.div_div. change (10000 * 10) with 100000.
  assert (H1 : digit (n mod 10000 / 1000) = digit (n / 1000)).
  { apply digit_mod. change 10000 with (1000 * 10).
    rewrite mod_mul_div by done. apply N.Div0.mod_mod. }
  assert (H2 : digit (n mod 10000 / 100) = digit (n / 100)).
  { apply digit_mod. change 10000 with (100 * 100).
    rewrite mod_mul_div by done. change 100 with (10 * 10) at 2.
    by apply mod_mul_mod. }
  assert (H3 : digit (n mod 10000 / 10) = digit (n / 10)).
  { apply digit_mod. change 10000 with (10 * 1000).
    rewrite mod_mul_div by done. change 1000 with (10 * 100).
    by apply mod_mul_mod. }
  assert (H4 : digit (n mod 10000) = digit n).
  { apply digit_mod. change 10000 with (10 * 1000). by apply mod_mul_mod. }
  by rewrite H1, H2, H3, H4.
Qed.

Lemma pad2_length (n : N) : length (pad2 n) = 2%nat.
Proof. reflexivity. Qed.

Lemma pad4_length (n : N) : length (pad4 n) = 4%nat.
Proof. reflexivity. Qed.

Lemma div_mod_lt (n m k : N) :
  k <> 0 -> n < m ->
  n / k < m / k \/ (n / k = m / k /\ n mod k < m mod k).
Proof.
  intros Hk Hnm.
  pose proof (N.div_mod n k Hk) as En. pose proof (N.div_mod m k Hk) as Em.
  pose proof (N.mod_upper_bound n k Hk). pose proof (N.mod_upper_bound m k Hk).
  set (qn := n / k) in *. set (qm := m / k) in *.
  set (rn := n mod k) in *. set (rm := m mod k) in *.
  clearbody qn qm rn rm.
  destruct (N.lt_trichotomy qn qm) as [?|[->|?]]; [by left|right; lia|].
  exfalso. nia.
Qed.

Lemma pad4_lt (n m : N) :
  n < m -> m < 10000 -> bytes_le (pad4 m) (pad4 n) = false.
Proof.
  intros Hnm Hm. rewrite !pad4_split.
  assert (m / 100 < 100) by (apply N.Div0.div_lt_upper_bound; lia).
  assert (m mod 100 < 100) by (by apply N.mod_upper_bound).
  destruct (div_mod_lt n m 100 ltac:(done) Hnm) as [Hq|[Hq Hr]].
  - apply bytes_lt_app; [done|]. by apply pad2_lt.
  - rewrite Hq, bytes_le_app_same. by apply pad2_lt.
Qed.

Lemma pad6_lt (n m : N) :
  n < m -> m < 1000000 -> bytes_le (pad6 m) (pad6 n) = false.
Proof.
  intros Hnm Hm. rewrite !pad6_split.
  assert (m / 10000 < 100) by (apply N.Div0.div_lt_upper_bound; lia).
  assert (m mod 10000 < 10000) by (by apply N.mod_upper_bound).
  destruct (div_mod_lt n m 10000 ltac:(done) Hnm) as [Hq|[Hq Hr]].
  - apply bytes_lt_app; [done|]. by apply pad2_lt.
  - rewrite Hq, bytes_le_app_same. by apply pad4_lt.
Qed.

Lemma digit_ascii (d : N) : digit d < 128.
Proof.
  unfold digit. pose proof (N.mod_upper_bound d 10 ltac:(done)).
  generalize dependent (d mod 10). intros. lia.
Qed.

Lemma pad2_ascii (n : N) : Forall (fun c => c < 128) (pad2 n).
Proof. repeat constructor; apply digit_ascii. Qed.

Lemma pad4_ascii (n : N) : Forall (fun c => c < 128) (pad4 n).
Proof. repeat constructor; apply digit_ascii. Qed.

Lemma pad6_ascii (n : N) : Forall (fun c => c < 128) (pad6 n).
Proof. repeat constructor; apply digit_ascii. Qed.

Lemma isoformat_ascii (t : datetime) : Forall (fun c => c < 128) (isoformat t).
Proof.
  unfold isoformat. rewrite !Forall_app.
  repeat split;
    try first [apply pad2_ascii | apply pad4_ascii | by repeat constructor].
  destruct (microsecond t =? 0); [constructor|].
  apply Forall_app. split; [by repeat constructor|apply pad6_ascii].
Qed.

(** An earlier reading of the clock prints as a text that sorts strictly
    before. *)
Lemma isoformat_lt (t u : datetime) :
  valid_datetime t -> valid_datetime u -> datetime_lt t u ->
  text_le (isoformat u) (isoformat t) = false.
Proof.
  intros (Hy & Hmo & Hd & Hh & Hmi & Hs & Hus)
         (Hy' & Hmo' & Hd' & Hh' & Hmi' & Hs' & Hus') Hlt.
  unfold text_le. rewrite !utf8_encode_ascii by apply isoformat_ascii.
  unfold isoformat.
  destruct Hlt as [Hlt|[-> Hlt]].
  { apply bytes_lt_app; [done|]. apply pad4_lt; lia. }
  rewrite !bytes_le_app_same.
  destruct Hlt as [Hlt|[-> Hlt]].
  { apply bytes_lt_app; [done|]. apply pad2_lt; lia. }
  rewrite !bytes_le_app_same.
  destruct Hlt as [Hlt|[-> Hlt]].
  { apply bytes_lt_app; [done|]. apply pad2_lt; lia. }
  rewrite !bytes_le_app_same.
  destruct Hlt as [Hlt|[-> Hlt]].
  { apply bytes_lt_app; [done|]. apply pad2_lt; lia. }
  rewrite !bytes_le_app_same.
  destruct Hlt as [Hlt|[-> Hlt]].
  { apply bytes_lt_app; [done|]. apply pad2_lt; lia. }
  rewrite !bytes_le_app_same.
  destruct Hlt as [Hlt|[-> Hlt]].
  { apply bytes_lt_app; [done|]. apply pad2_lt; lia. }
  rewrite !bytes_le_app_same.
  destruct (N.eqb_spec (microsecond u) 0) as [Hz|Hnz]; [lia|].
  destruct (N.eqb_spec (microsecond t) 0) as [Hz'|Hnz']; [done|].
  rewrite bytes_le_app_same. apply pad6_lt; lia.
Qed.

(** ** Documents, newest first *)

Lemma render_times_snoc (cs : list call) (c : call) :
  render_times (cs ++ [c])
  = render_times cs ++ match c with
                       | Render _ _ _ _ now => [now]
                       | _ => []
                       end.
Proof.
  unfold render_times. by rewrite flat_map_app; simpl; rewrite app_nil_r.
Qed.

Lemma render_created_at (n t : str) (v : dict) (f : str) (d : datetime)
      (w : world) (doc : Document.t) (w' : world) :
  render n t v f d w = (Ok doc, w') -> Document.created_at doc = isoformat d.
Proof.
  intros Hr.
  destruct (find (fun r => bool_decide (Template.name r = n))
                 (templates (conn w))) as [row|] eqn:Hfind.
  - destruct (_render (Template.content row) v) as [out|e] eqn:Ho.
    + rewrite (render_ok n t v f d w row out) in Hr
        by (by rewrite ?select_template_eq, ?Hfind).
      by injection Hr as <- _.
    + unfold render, bind in Hr. rewrite select_template_eq, Hfind, Ho in Hr.
      by destruct (is_KeyError e).
  - rewrite render_not_found in Hr by (by rewrite select_template_eq, Hfind).
    done.
Qed.

(** When the renders of a history are called at valid, strictly increasing
    readings of the clock, the documents stand in the table in strictly
    increasing order of [created_at]. *)
Lemma documents_in_time_order (e : process_env) (fs : gmap (list N) (list N))
      (cs : list call) :
  Forall valid_datetime (render_times cs) ->
  StronglySorted datetime_lt (render_times cs) ->
  StronglySorted (fun a b => text_le (Document.created_at b)
                                     (Document.created_at a) = false)
                 (documents (conn (run (init_world e fs) cs)))
  /\ (forall doc, doc ∈ documents (conn (run (init_world e fs) cs)) ->
        exists t, t ∈ render_times cs
                  /\ Document.created_at doc = isoformat t).
Proof.
  induction cs as [|c cs IH] using rev_ind; intros Hvalid Hsorted.
  - split; [constructor|]. intros doc Hin. by apply elem_of_nil in Hin.
  - rewrite render_times_snoc in Hvalid, Hsorted.
    apply Forall_app in Hvalid as [Hvalid Hv].
    apply StronglySorted_app in Hsorted as (Hcross & Hsorted & _).
    destruct (IH Hvalid Hsorted) as [IHs IHt].
    rewrite run_snoc, render_times_snoc.
    set (w := run (init_world e fs) cs) in *.
    destruct c as [n c g t|n t v f d|i f t1 t2].
    + destruct (create_template_step n c g t w) as (_ & _ & _ & _ & -> & _).
      rewrite app_nil_r. done.
    + destruct (render_step n t v f d w)
        as [[_ ->]|(doc & _ & Hr & _ & _ & _ & _ & _ & -> & _)].
      * split; [done|]. intros doc Hdoc.
        destruct (IHt doc Hdoc) as (t' & Ht' & ?).
        exists t'. rewrite elem_of_app. tauto.
      * apply render_created_at in Hr. split.
        -- apply StronglySorted_app. split; [|split; [done|repeat constructor]].
           intros a b Ha ->%list_elem_of_singleton.
           destruct (IHt a Ha) as (t' & Ht' & ->). rewrite Hr.
           apply isoformat_lt.
           ++ rewrite Forall_forall in Hvalid. by apply Hvalid.
           ++ by apply Forall_inv in Hv.
           ++ apply Hcross; [done|apply list_elem_of_here].
        -- intros a [Ha| ->%list_elem_of_singleton]%elem_of_app.
           ++ destruct (IHt a Ha) as (t' & Ht' & ?).
              exists t'. rewrite elem_of_app. tauto.
           ++ exists d. split; [|done]. apply elem_of_app. right.
              apply list_elem_of_here.
    + rewrite app_nil_r.
      destruct (export_step i f t1 t2 w)
        as [(_ & _ & ->)|(row & rec & _ & _ & _ & _ & _ & _ & _ & _ & -> & _)];
        [done|].
      split.
      * eapply StronglySorted_fmap; [|exact IHs].
        intros a b H. by repeat case_bool_decide.
      * intros doc (r & -> & Hr)%list_elem_of_fmap.
        destruct (IHt r Hr) as (t' & Ht' & ?). exists t'.
        split; [done|]. by case_bool_decide.
Qed.

(** In descending order, a strictly ascending table is read backwards. *)
Lemma order_by_desc_rev {A} (key : A -> list N) (l : list A) :
  StronglySorted (fun a b => text_le (key b) (key a) = false) l ->
  order_by (fun a b => text_le (key b) (key a)) l = rev l.
Proof.
  induction 1 as [|x l Hs IH Hx]; [done|].
  simpl. rewrite IH. clear IH Hs.
  assert (H : Forall (fun y => text_le (key y) (key x) = false) (rev l)).
  { apply Forall_forall. intros y Hy. rewrite Forall_forall in Hx.
    apply Hx. apply list_elem_of_In. apply list_elem_of_In in Hy.
    by apply in_rev. }
  induction H as [|y r Hy _ IH]; [done|].
  simpl. by rewrite Hy, IH.
Qed.

(** ** The slug of a title *)

Lemma is_word_underscore (e : process_env) : is_word e 95 = true.
Proof. reflexivity. Qed.

Lemma safe_title_idempotent (e : process_env) (title : str) :
  safe_title_of e (safe_title_of e title) = safe_title_of e title.
Proof.
  unfold safe_title_of. rewrite map_map. apply map_ext. intros x.
  destruct (is_word e x) eqn:Hw; simpl; [by rewrite Hw|].
  destruct (N.eqb_spec x 45) as [->|]; [done|]. done.
Qed.

(** ** Upsert, then render *)

Lemma select_after_upsert (n c g : str) (t : datetime) (w : world) :
  exists row,
    select_template n (step w (CreateTemplate n c g t))
    = (Ok (Some row), step w (CreateTemplate n c g t))
    /\ Template.name row = n /\ Template.content row = c.
Proof.
  rewrite select_template_eq.
  destruct (create_template_step n c g t w) as (_ & _ & _ & _ & _ & _ & ->).
  destruct (find (fun r => bool_decide (Template.name r = n))
                 (templates (conn w))) as [old|] eqn:Hfind.
  - rewrite find_name_after_update, Hfind.
    apply find_some in Hfind as [_ Hn]. apply bool_decide_eq_true_1 in Hn.
    cbn [fmap option_fmap option_map]. rewrite (bool_decide_eq_true_2 _ Hn).
    eexists. split; [done|]. done.
  - rewrite find_app, Hfind. cbn [find Template.name].
    rewrite bool_decide_eq_true_2 by done. eexists. split; [done|]. done.
Qed.

(** ** Templates change by upserts only *)

Lemma step_templates (w : world) (c : call) (i : nat) (t : Template.t) :
  templates (conn w) !! i = Some t ->
  exists t',
    templates (conn (step w c)) !! i = Some t'
    /\ Template.id t' = Template.id t
    /\ Template.name t' = Template.name t
    /\ Template.created_at t' = Template.created_at t
    /\ (Template.name t ∉ created_names [c] -> t' = t).
Proof.
  intros Hi. destruct c as [n c g d|n ti v f d|j f t1 t2].
  - destruct (create_template_step n c g d w) as (_ & _ & _ & _ & _ & _ & ->).
    destruct (find _ (templates (conn w))) as [old|].
    + eexists. split; [by rewrite list_lookup_fmap, Hi|].
      case_bool_decide as Hn; [|done].
      do 3 (split; [done|]). intros Hnot. exfalso. apply Hnot.
      simpl. rewrite Hn. apply list_elem_of_here.
    + exists t. split; [by apply lookup_app_l_Some|done].
  - destruct (render_step n ti v f d w)
      as [[_ ->]|(doc & _ & _ & _ & _ & _ & -> & _)]; by exists t.
  - destruct (export_step j f t1 t2 w)
      as [(_ & _ & ->)|(row & rec & _ & _ & _ & _ & _ & _ & _ & -> & _)];
      by exists t.
Qed.

(** No call removes or moves a template: the row keeps its place, id, name
    and creation time along every history, and it is unchanged as a whole
    when the history has no upsert of its name. *)
Theorem templates_change_only_by_upsert (w : world) (cs : list call)
        (i : nat) (t : Template.t) :
  templates (conn w) !! i = Some t ->
  exists t',
    templates (conn (run w cs)) !! i = Some t'
    /\ Template.id t' = Template.id t
    /\ Template.name t' = Template.name t
    /\ Template.created_at t' = Template.created_at t
    /\ (Template.name t ∉ created_names cs -> t' = t).
Proof.
  intros Hi. induction cs as [|c cs IH] using rev_ind.
  - by exists t.
  - destruct IH as (t1 & H1 & Hid & Hn & Hc & Hsame).
    rewrite run_snoc, created_names_snoc.
    destruct (step_templates (run w cs) c i t1 H1)
      as (t2 & H2 & Hid2 & Hn2 & Hc2 & Hsame2).
    exists t2. split; [done|]. repeat split; try congruence.
    rewrite not_elem_of_app. intros [Hcs Hcnew].
    rewrite Hsame2; [by apply Hsame|].
    rewrite Hn. simpl. by rewrite app_nil_r.
Qed.

(** A call that raises, be it for a template or a document that is not
    there, a variable that is missing, an id out of range or a file that
    the file system does not open, leaves the whole state as it was: the
    rows, the committed rows and the files.  A call that returns has
    committed all it wrote; so along every history from an empty store
    nothing is left uncommitted. *)
Theorem calls_are_all_or_nothing :
  (forall w c,
      (call_succeeds w c = false -> step w c = w)
      /\ (call_succeeds w c = true -> committed (step w c) = conn (step w c)))
  /\ (forall e fs cs,
        committed (run (init_world e fs) cs) = conn (run (init_world e fs) cs)).
Proof. split; [apply step_outcome|apply run_committed]. Qed.

(** Along every history from an empty store the ids of the templates, of
    the documents and of the export records are 1, 2, 3, ... in the order of
    insertion, and the document stored at position [i] is the one found
    under the id [i + 1]. *)
Theorem row_ids_count_up (e : process_env) (fs : gmap (list N) (list N))
        (cs : list call) :
  let w := run (init_world e fs) cs in
  map Template.id (templates (conn w)) = rowids (length (templates (conn w)))
  /\ map Document.id (documents (conn w))
     = rowids (length (documents (conn w)))
  /\ map ExportRecord.id (export_records (conn w))
     = rowids (length (export_records (conn w)))
  /\ (forall i doc,
        documents (conn w) !! i = Some doc ->
        Document.id doc = Z.of_nat (S i)
        /\ select_document (Z.of_nat (S i)) w = (Ok (Some doc), w)).
Proof.
  intros w. destruct (keys_invariant e fs cs) as (Ht & _ & Hd & Hr).
  fold w in Ht, Hd, Hr. do 3 (split; [done|]). intros i doc Hi.
  assert (Hid : Document.id doc = Z.of_nat (S i)).
  { pose proof (lookup_lt_Some _ _ _ Hi) as Hlt.
    apply (f_equal (fun l => l !! i)) in Hd.
    rewrite list_lookup_fmap, Hi, rowids_lookup in Hd by done.
    by injection Hd. }
  split; [done|]. rewrite select_document_eq, <- Hid.
  rewrite (find_by_key Document.id _ i doc); [done| |done].
  rewrite Hd. apply rowids_NoDup.
Qed.

(** The row under a name after a history: none when the name was never
    upserted; otherwise its version is the number of upserts of the name,
    its content, variables, category and update time are those of the last
    one and its creation time is that of the first one. *)
Theorem template_reflects_its_upserts (e : process_env)
        (fs : gmap (list N) (list N)) (cs : list call) (name : str) :
  let w := run (init_world e fs) cs in
  match last (upserts name cs) with
  | None => select_template name w = (Ok None, w)
  | Some (c, g, t) =>
      exists row,
        select_template name w = (Ok (Some row), w)
        /\ Template.name row = name
        /\ Template.version row = Z.of_nat (length (upserts name cs))
        /\ Template.content row = c
        /\ Template.variables row = json_dumps_list (_extract_vars c)
        /\ Template.category row = g
        /\ Template.updated_at row = isoformat t
        /\ (forall c0 g0 t0, head (upserts name cs) = Some (c0, g0, t0) ->
              Template.created_at row = isoformat t0)
  end.
Proof.
  intros w. pose proof (template_history e fs cs name) as H. fold w in H.
  destruct (last (upserts name cs)) as [[[c g] t]|].
  - destruct H as (row & Hfind & H). exists row.
    by rewrite select_template_eq, Hfind.
  - by rewrite select_template_eq, H.
Qed.

(** Export records are only ever appended.  Along every history from an
    empty store each record names a stored document whose status is
    exported and a path at which a file exists, and each exported document
    has a record. *)
Theorem export_records_are_kept :
  (forall w cs, exists more,
      export_records (conn (run w cs)) = export_records (conn w) ++ more)
  /\ (forall e fs cs,
        let w := run (init_world e fs) cs in
        (forall rec, rec ∈ export_records (conn w) ->
           (exists doc, doc ∈ documents (conn w)
                        /\ Document.id doc = ExportRecord.document_id rec
                        /\ Document.status doc = py "exported")
           /\ is_Some (files w !! ExportRecord.export_path rec))
        /\ (forall doc, doc ∈ documents (conn w) ->
              Document.status doc = py "exported" ->
              exists rec, rec ∈ export_records (conn w)
                          /\ ExportRecord.document_id rec = Document.id doc)).
Proof. split; [apply run_export_records|apply records_invariant]. Qed.

(** Rendering a name right after its upsert uses the content just stored:
    the new draft holds the substitution of the given mapping in that
    content, and when the substitution misses a variable the render raises
    the wrapped error and stores nothing. *)
Theorem upsert_then_render (n c g : str) (t : datetime) (title : str)
        (vars : dict) (fmt : str) (t2 : datetime) (w : world) :
  let w1 := step w (CreateTemplate n c g t) in
  match _render c vars with
  | Ok out =>
      exists doc,
        render n title vars fmt t2 w1
        = (Ok doc, step w1 (Render n title vars fmt t2))
        /\ documents (conn (step w1 (Render n title vars fmt t2)))
           = documents (conn w) ++ [doc]
        /\ Document.template_name doc = n
        /\ Document.title doc = title
        /\ Document.content doc = out
        /\ Document.variables_used doc = json_dumps_dict vars
        /\ Document.fmt doc = fmt
        /\ Document.status doc = py "draft"
        /\ Document.created_at doc = isoformat t2
  | Raise err =>
      render n title vars fmt t2 w1 = (Raise (ValueError_from err), w1)
  end.
Proof.
  intros w1. destruct (select_after_upsert n c g t w) as (row & Hsel & Hn & Hc).
  fold w1 in Hsel.
  destruct (create_template_step n c g t w) as (_ & _ & _ & _ & Hdocs & _).
  fold w1 in Hdocs.
  destruct (_render c vars) as [out|err] eqn:Hr.
  - rewrite <- Hc in Hr.
    pose proof (render_ok n title vars fmt t2 w1 row out Hsel Hr) as Hok.
    cbv zeta in Hok. eexists. cbn [step]. rewrite Hok.
    split; [done|]. cbn [snd conn documents]. rewrite Hdocs. done.
  - destruct (render_raises_key_error _ _ _ Hr) as (k & _ & _ & ->).
    rewrite <- Hc in Hr. by apply (render_missing _ _ _ _ _ _ row).
Qed.

(** After a history from an empty store the statistics count calls: the
    templates are the distinct names upserted, the documents the renders
    that returned and the exports the exports that returned. *)
Theorem pipeline_status_counts_calls (e : process_env)
        (fs : gmap (list N) (list N)) (cs : list call) :
  let w := run (init_world e fs) cs in
  exists s,
    pipeline_status w = (Ok s, w)
    /\ PipelineStatus.templates s
       = Z.of_nat (length (dict_fromkeys (created_names cs)))
    /\ PipelineStatus.documents s
       = Z.of_nat (length (List.filter is_render
                                       (returned (init_world e fs) cs)))
    /\ PipelineStatus.total_exports s
       = Z.of_nat (length (List.filter is_export
                                       (returned (init_world e fs) cs))).
Proof.
  intros w. eexists. split; [apply pipeline_status_eq|].
  cbn [PipelineStatus.templates PipelineStatus.documents
       PipelineStatus.total_exports].
  destruct (rows_count_calls e fs cs) as [Hd Hr]. fold w in Hd, Hr.
  rewrite <- Hd, <- Hr. split; [|done].
  by rewrite <- (template_names e fs cs), length_map.
Qed.

(** In the statistics after a history from an empty store, drafts and
    exported documents add up to all documents, and there are at most as
    many exported documents as export records. *)
Theorem pipeline_status_balance (e : process_env)
        (fs : gmap (list N) (list N)) (cs : list call) :
  let w := run (init_world e fs) cs in
  exists s,
    pipeline_status w = (Ok s, w)
    /\ (PipelineStatus.drafts s + PipelineStatus.exported s
        = PipelineStatus.documents s)%Z
    /\ (0 <= PipelineStatus.drafts s)%Z
    /\ (0 <= PipelineStatus.exported s <= PipelineStatus.total_exports s)%Z.
Proof.
  intros w. eexists. split; [apply pipeline_status_eq|].
  cbn [PipelineStatus.drafts PipelineStatus.exported PipelineStatus.documents
       PipelineStatus.total_exports].
  split.
  { apply count_status_split. intros d Hd.
    by apply (status_draft_or_exported e fs cs). }
  pose proof (exported_le_records e fs cs) as Hle. cbv zeta in Hle.
  fold w in Hle. unfold count_status in *. lia.
Qed.

(** The template listing after a history from an empty store has one row
    for each stored template, in ascending order of the names; the names
    are the distinct names upserted and each row's version is the number of
    upserts of its name. *)
Theorem list_templates_sorted_by_name (e : process_env)
        (fs : gmap (list N) (list N)) (cs : list call) :
  let w := run (init_world e fs) cs in
  exists rows,
    list_templates w = (Ok rows, w)
    /\ rows ≡ₚ map template_row (templates (conn w))
    /\ StronglySorted (fun a b => text_le (TemplateRow.name a)
                                          (TemplateRow.name b) = true) rows
    /\ map TemplateRow.name rows ≡ₚ dict_fromkeys (created_names cs)
    /\ (forall r, r ∈ rows ->
          TemplateRow.version r
          = Z.of_nat (length (upserts (TemplateRow.name r) cs))).
Proof.
  intros w. destruct (list_templates_rows w) as (rows & Hl & Hp & Hs).
  exists rows. do 3 (split; [done|]). split.
  - rewrite Hp, <- (template_names e fs cs), map_map. reflexivity.
  - intros r Hr. rewrite Hp in Hr.
    apply list_elem_of_fmap in Hr as (t & -> & Ht).
    cbn [template_row TemplateRow.name TemplateRow.version].
    apply list_elem_of_lookup_1 in Ht as [i Hi].
    destruct (keys_invariant e fs cs) as (_ & Hnd & _). fold w in Hnd.
    pose proof (find_by_key Template.name _ i t Hnd Hi) as Hfind.
    pose proof (template_history e fs cs (Template.name t)) as H.
    fold w in H. destruct (last (upserts (Template.name t) cs))
      as [[[c g] d]|].
    + destruct H as (row & Hf & _ & Hv & _). congruence.
    + congruence.
Qed.

(** The document listing, for a limit that SQLite takes: the rows returned
    and the rows cut off are together the stored documents in descending
    order of their creation texts, so no row cut off is newer than a row
    returned; a negative limit cuts nothing off, another limit leaves at
    most that many rows. *)
Theorem list_documents_newest_within_limit (limit : Z) (w : world) :
  int64 limit ->
  exists rows rest,
    list_documents limit w = (Ok rows, w)
    /\ rows ++ rest ≡ₚ map document_row (documents (conn w))
    /\ StronglySorted (fun a b => text_le (DocumentRow.created_at b)
                                          (DocumentRow.created_at a) = true)
                      (rows ++ rest)
    /\ ((limit < 0)%Z -> rest = [])
    /\ length rows
       = if (limit <? 0)%Z then length (documents (conn w))
         else Nat.min (Z.to_nat limit) (length (documents (conn w))).
Proof. apply list_documents_rows. Qed.

Lemma list_documents_newest_within_limit_witness :
  int64 1
  /\ exists rows rest,
       list_documents 1 (run fresh_world two_invoices)
       = (Ok rows, run fresh_world two_invoices)
       /\ rows ++ rest
          ≡ₚ map document_row
                 (documents (conn (run fresh_world two_invoices)))
       /\ StronglySorted (fun a b => text_le (DocumentRow.created_at b)
                                             (DocumentRow.created_at a) = true)
                         (rows ++ rest)
       /\ ((1 < 0)%Z -> rest = [])
       /\ length rows = 1%nat.
Proof.
  assert (H : int64 1) by (unfold int64; lia).
  split; [exact H|].
  exact (list_documents_newest_within_limit 1 (run fresh_world two_invoices) H).
Defined.

(** When the renders of a history are called at valid, strictly increasing
    times, the listing is the stored documents read backwards, newest
    render first, cut at the limit. *)
Theorem list_documents_newest_first (e : process_env)
        (fs : gmap (list N) (list N)) (cs : list call) (limit : Z) :
  int64 limit ->
  Forall valid_datetime (render_times cs) ->
  StronglySorted datetime_lt (render_times cs) ->
  let w := run (init_world e fs) cs in
  list_documents limit w
  = (Ok (map document_row (sql_limit limit (rev (documents (conn w))))), w).
Proof.
  intros Hn Hv Hs w. rewrite list_documents_eq by done.
  destruct (documents_in_time_order e fs cs Hv Hs) as [Hsorted _].
  fold w in Hsorted.
  by rewrite (order_by_desc_rev Document.created_at _ Hsorted).
Qed.

Lemma list_documents_newest_first_witness :
  list_documents 25 (run fresh_world two_years)
  = (Ok (map document_row
             (sql_limit 25 (rev (documents
                                   (conn (run fresh_world two_years)))))),
     run fresh_world two_years).
Proof.
  apply (list_documents_newest_first demo_env ∅ two_years 25).
  - unfold int64. lia.
  - repeat constructor; vm_compute; congruence.
  - repeat constructor.
Defined.

(** The slug of a title has the title's length, keeps every word
    character and hyphen in its place and has an underscore everywhere
    else; so it has no slash and no dot, and taking the slug again changes
    nothing. *)
Theorem safe_title_is_a_slug (e : process_env) (title : str) :
  length (safe_title_of e title) = length title
  /\ (forall c, c ∈ safe_title_of e title -> is_word e c = true \/ c = 45)
  /\ (47 ∉ safe_title_of e title)
  /\ (46 ∉ safe_title_of e title)
  /\ safe_title_of e (safe_title_of e title) = safe_title_of e title
  /\ (forall i c, title !! i = Some c ->
        safe_title_of e title !! i
        = Some (if is_word e c || (c =? 45) then c else 95)).
Proof.
  split; [apply length_map|].
  split; [apply safe_title_chars|].
  split; [apply safe_title_no_slash|].
  split; [apply safe_title_no_dot|].
  split; [apply safe_title_idempotent|].
  intros i c Hi. unfold safe_title_of. by rewrite list_lookup_fmap, Hi.
Qed.


Lemma templates_change_only_by_upsert_witness :
  let w := run fresh_world
               [CreateTemplate (py "x") (py "a") (py "general") new_year_2024] in
  let t := Template.mk 1 (py "x") (py "a") (json_dumps_list []) (py "general")
                       1 (isoformat new_year_2024) (isoformat new_year_2024) in
  templates (conn w) !! 0%nat = Some t
  /\ templates (conn (run w two_years)) !! 0%nat = Some t.
Proof.
  intros w t.
  assert (H : templates (conn w) !! 0%nat = Some t) by (vm_compute; reflexivity).
  split; [exact H|].
  destruct (templates_change_only_by_upsert w two_years 0 t H)
    as (t' & Ht' & _ & _ & _ & Hsame).
  rewrite Ht'. f_equal. apply Hsame.
  vm_compute. intros Hin. inversion Hin as [|? ? ? Hnil]; inversion Hnil.
Defined.

Lemma documents_keep_their_fields_witness :
  let w := run fresh_world two_years in
  let d := Document.mk 1 1 (py "invoice") (py "First") (py "Total: 10")
                       (json_dumps_dict [(py "n", py "10")]) (py "txt")
                       (py "draft") (isoformat new_year_2024) in
  documents (conn w) !! 0%nat = Some d
  /\ exists d',
       documents (conn (run w [ExportDocument 1 None new_year_2025
                                              new_year_2025])) !! 0%nat
       = Some d'
       /\ same_document d d'
       /\ (Document.status d' = Document.status d
           \/ Document.status d' = py "exported").
Proof.
  intros w d.
  assert (H : documents (conn w) !! 0%nat = Some d) by (vm_compute; reflexivity).
  split; [exact H|].
  exact (documents_keep_their_fields
           w [ExportDocument 1 None new_year_2025 new_year_2025] 0 d H).
Defined.


